(** * autodE: relaxed 1D PES scans, peak detection and core stripping

    A shallow embedding of [autode/pes_1d.py] (the relaxed scan driver
    [get_ts_guess_1dpes_scan] and the peak finder
    [find_1dpes_maximum_energy_xyzs]) together with the core-atom selection
    and core stripping operations of the Molecule class.

    Conventions of the embedding.
    - A Python float that holds an energy or a distance is modelled by the
      rational it denotes (every finite binary64 value is a rational and
      the comparisons of finite floats are exact); NaN and infinities are
      outside the model.  No result of the peak finder depends on float
      arithmetic, only on comparisons.  The sample distances of a scan are
      computed in binary64: each operation of [numpy.linspace] is the exact
      operation followed by rounding to the nearest binary64 value, ties to
      even ([round64]).
    - [None] is [option]'s [None]; a Python exception is the [Raise]
      constructor of [result].
    - Python objects that are mutated ([Molecule]s) live in a store
      ([gmap loc Molecule]); a Python variable holding such an object is a
      location. *)

From Stdlib Require Import QArith Qround Qabs Qpower Lqa Ascii.
From stdpp Require Import gmap strings list pretty.

(** ** Python exceptions as results *)

Inductive exn : Type :=
  | TypeError
  | IndexError
  | ValueError
  | InputError.

Inductive result (A : Type) : Type :=
  | Ok (a : A)
  | Raise (e : exn).
Arguments Ok {A} a.
Arguments Raise {A} e.

(** Sequencing: the first exception raised aborts what follows. *)
Definition rbind {A B} (r : result A) (k : A → result B) : result B :=
  match r with
  | Ok a => k a
  | Raise e => Raise e
  end.

Notation "x <- r ;; k" := (rbind r (λ x, k))
  (at level 100, r at next level, right associativity, only parsing).

(** Left-to-right loop over a list, the body may raise. *)
Fixpoint rfold {A B} (f : A → B → result A) (a : A) (l : list B) : result A :=
  match l with
  | [] => Ok a
  | b :: l' => a' <- f a b ;; rfold f a' l'
  end.

(** List comprehension [[f x for x in l]] whose body may raise. *)
Fixpoint rmap {A B} (f : A → result B) (l : list A) : result (list B) :=
  match l with
  | [] => Ok []
  | x :: l' => y <- f x ;; ys <- rmap f l' ;; Ok (y :: ys)
  end.

(** [l[i]] for a non-negative index. *)
Definition py_index {A} (l : list A) (i : nat) : result A :=
  match l !! i with
  | Some x => Ok x
  | None => Raise IndexError
  end.

(** ** Energies *)

(** What [Calculation.get_energy] returns: a float, or [None] when the
    output holds no energy (see [get_energy] in wrappers/ORCA.py, which
    falls off the end of its loop). *)
Abbreviation energy := (option Q) (only parsing).

Definition Qlt_bool (x y : Q) : bool :=
  match (x ?= y)%Q with
  | Lt => true
  | _ => false
  end.

(** [a < b]: floats compare, [None] is unorderable. *)
Definition py_lt (a b : energy) : result bool :=
  match a, b with
  | Some x, Some y => Ok (Qlt_bool x y)
  | _, _ => Raise TypeError
  end.

(** [a > b] *)
Definition py_gt (a b : energy) : result bool := py_lt b a.

(** [a - b] *)
Definition py_sub (a b : energy) : result Q :=
  match a, b with
  | Some x, Some y => Ok (x - y)%Q
  | _, _ => Raise TypeError
  end.

(** The builtin [min] on a list: the running minimum is replaced by an
    item only when [item < minimum]; the empty list raises. *)
Fixpoint py_min_from (m : energy) (l : list energy) : result energy :=
  match l with
  | [] => Ok m
  | x :: l' => b <- py_lt x m ;; py_min_from (if b then x else m) l'
  end.

Definition py_min (l : list energy) : result energy :=
  match l with
  | [] => Raise ValueError
  | x :: l' => py_min_from x l'
  end.

(** Modelled from the spec: [Constants.ha2kcalmol] is declared in
    autode/constants.py, which is not part of the sources at hand; it is
    the hartree to kcal/mol factor by which the spec's "normalized energy
    curve" is "converted to a chemistry-standard energy unit". *)
Definition ha2kcalmol : Q := (627509 # 1000)%Q.

(** ** The peak finder (pes_1d.py, find_1dpes_maximum_energy_xyzs) *)

Section PeakFinder.
Context {D X : Type}.

(** One iteration of the [for i in range(1, len(dists) - 1)] loop.  The
    state is the pair [(peak_e, xyzs_peak_energy)].  [and] and the chained
    comparison evaluate left to right and stop at the first false conjunct;
    the middle operand of the chain is evaluated once. *)
Definition peak_step (xyzs_list : list X) (energy_list : list energy)
    (st : energy * option X) (i : nat) : result (energy * option X) :=
  e_i <- py_index energy_list i ;;
  above <- py_gt e_i (fst st) ;;
  if above then
    e_prev <- py_index energy_list (i - 1) ;;
    e_mid <- py_index energy_list i ;;
    rising <- py_lt e_prev e_mid ;;
    if rising then
      e_next <- py_index energy_list (i + 1) ;;
      falling <- py_gt e_mid e_next ;;
      if falling then
        peak_e <- py_index energy_list i ;;
        xyzs_peak_energy <- py_index xyzs_list i ;;
        Ok (peak_e, Some xyzs_peak_energy)
      else Ok st
    else Ok st
  else Ok st.

(** The argument handed to [plot_1dpes]; the plot itself is an external
    collaborator whose result is not used, but its argument is evaluated
    by this function. *)
Definition plot_curve (energy_list : list energy) (min_e : energy)
    : result (list Q) :=
  rmap (λ e, d <- py_sub e min_e ;; Ok (ha2kcalmol * d)%Q) energy_list.

Definition find_1dpes_maximum_energy_xyzs (dists : list D)
    (xyzs_list : list X) (energy_list : list energy) : result (option X) :=
  if (length xyzs_list =? 0) || (length energy_list =? 0) then Ok None
  else
    peak_e <- py_min energy_list ;;
    min_e <- py_min energy_list ;;
    st <- rfold (peak_step xyzs_list energy_list) (peak_e, None)
           (seq 1 (length dists - 1 - 1)) ;;
    _ <- plot_curve energy_list min_e ;;
    Ok (snd st).
End PeakFinder.

(** ** Molecules and the object store *)

(** One line [[label, x, y, z]] of a geometry. *)
Abbreviation atom_line := (string * Q * Q * Q)%type (only parsing).

(** A geometry as the wrappers return it, or [None]. *)
Abbreviation pyxyzs := (option (list atom_line)) (only parsing).

Abbreviation bond := (nat * nat)%type (only parsing).

(** The attributes of a [Molecule] object that the scan and the stripping
    touch.  The class itself (autode/molecule.py) is not part of the sources
    at hand; the fields are the ones its tests and callers read. *)
Record Molecule : Type := {
  name : string;
  xyzs : pyxyzs;
  graph : list bond;
  pi_bonds : option (list bond);
  active_atoms : option (list nat);
  is_fragment : bool;
  charge : Z;
  mult : Z
}.

#[export] Instance Molecule_inhabited : Inhabited Molecule :=
  populate {| name := ""; xyzs := None; graph := []; pi_bonds := None;
              active_atoms := None; is_fragment := false;
              charge := 0%Z; mult := 1%Z |}.

(** The attribute assignment [m.xyzs = x]. *)
Definition with_xyzs (x : pyxyzs) (m : Molecule) : Molecule :=
  {| name := name m; xyzs := x; graph := graph m; pi_bonds := pi_bonds m;
     active_atoms := active_atoms m; is_fragment := is_fragment m;
     charge := charge m; mult := mult m |}.

(** Modelled from the spec: [Molecule.set_xyzs] lives in autode/molecule.py,
    which is missing; the TS guess is "a new Structure from
    structure_template with coordinates replaced by peak_geometry". *)
Definition set_xyzs (x : pyxyzs) (m : Molecule) : Molecule := with_xyzs x m.

Definition n_atoms (m : Molecule) : nat :=
  match xyzs m with
  | Some l => length l
  | None => 0
  end.

Abbreviation loc := positive (only parsing).

Inductive ElectronicStructureMethod : Type := ORCA | XTB.

(** The keyword arguments of [Calculation(...)] as pes_1d.py passes them. *)
Record CalcArgs : Type := {
  calc_name : string;
  calc_molecule : loc;
  calc_method : ElectronicStructureMethod;
  calc_opt : bool;
  calc_n_cores : nat;
  calc_distance_constraints : list (bond * Q);
  calc_keywords : list string
}.

(** The store of molecule objects, and the log of the calculations that were
    run: each entry holds the arguments and the state of the molecule the
    calculation was given. *)
Record pystate : Type := {
  heap : gmap loc Molecule;
  calls : list (CalcArgs * Molecule)
}.

(** [copy.deepcopy(m)]: a new object, equal to the old one, sharing nothing
    with it. *)
Definition deepcopy (l : loc) (st : pystate) : loc * pystate :=
  let l' := fresh (dom (heap st)) in
  (l', {| heap := <[l' := heap st !!! l]> (heap st); calls := calls st |}).

(** ** binary64 arithmetic

    The distances of a scan are numpy float64 numbers.  A finite binary64
    value is [m * 2 ^ e] for integers [|m| <= 2 ^ 53] and [e >= -1074]; an
    arithmetic operation returns the exact result rounded to the nearest
    such value, ties to the one with even [m].  Results whose magnitude
    reaches [2 ^ 1024], for which the hardware returns an infinity, are
    outside the model. *)

(** [floor (log2 x)] for a positive rational. *)
Definition Qlog2 (x : Q) : Z :=
  let k := (Z.log2 (Qnum x) - Z.log2 (Z.pos (Qden x)))%Z in
  if Qle_bool (2 ^ k) x then k else (k - 1)%Z.

(** The nearest integer, ties to even. *)
Definition round_half_even (x : Q) : Z :=
  let f := Qfloor x in
  match (x - inject_Z f ?= 1 # 2)%Q with
  | Lt => f
  | Gt => (f + 1)%Z
  | Eq => if Z.even f then f else (f + 1)%Z
  end.

(** The exponent of the unit in the last place of a magnitude: 53
    significant bits, never below the subnormal spacing [2 ^ -1074]. *)
Definition ulp_exponent (a : Q) : Z := Z.max (Qlog2 a - 52) (-1074).

(** Rounding to binary64; the result is in lowest terms. *)
Definition round64 (x : Q) : Q :=
  let a := Qabs x in
  let e := ulp_exponent a in
  let m := round_half_even (a / 2 ^ e) in
  Qred (inject_Z (if Qle_bool 0 x then m else (- m)%Z) * 2 ^ e).

(** [x + y], [x - y], [x * y] and [x / y] on floats. *)
Definition fl_add (x y : Q) : Q := round64 (x + y).
Definition fl_sub (x y : Q) : Q := round64 (x - y).
Definition fl_mul (x y : Q) : Q := round64 (x * y).
Definition fl_div (x y : Q) : Q := round64 (x / y).

(** [numpy.linspace(start, stop, num)] with its default [endpoint=True], as
    numpy computes it on float64 (numpy/core/function_base.py, an external
    library): [num] below zero raises ValueError; [start] and [stop] are
    multiplied by [1.0]; [y = arange(0, num)] as floats is multiplied by
    [step = delta / div] with [delta = stop - start] and [div = num - 1], or
    divided by [div] and multiplied by [delta] when the step underflows to
    zero, or multiplied by [delta] when [div] is not positive; [start] is
    added; and for [num > 1] the last sample is overwritten with [stop]. *)
Definition linspace (start stop : Q) (num : Z) : result (list Q) :=
  if (num <? 0)%Z then Raise ValueError
  else
    let div := (num - 1)%Z in
    let start := fl_mul start 1 in
    let stop := fl_mul stop 1 in
    let delta := fl_sub stop start in
    let y := (λ i : nat, round64 (inject_Z (Z.of_nat i)))
               <$> seq 0 (Z.to_nat num) in
    let y :=
      if (0 <? div)%Z then
        let step := fl_div delta (round64 (inject_Z div)) in
        if Qeq_bool step 0
        then (λ v, fl_mul (fl_div v (round64 (inject_Z div))) delta) <$> y
        else (λ v, fl_mul v step) <$> y
      else (λ v, fl_mul v delta) <$> y in
    let y := (λ v, fl_add v start) <$> y in
    Ok (if (1 <? num)%Z then <[Z.to_nat num - 1 := stop]> y else y).

(** The record built by [TSguess(name=..., reaction_class=..., molecule=...,
    active_bonds=...)]. *)
Record TSguess (ReactionClass : Type) : Type := {
  ts_name : string;
  ts_reaction_class : ReactionClass;
  ts_molecule : loc;
  ts_active_bonds : list bond
}.
Arguments ts_name {ReactionClass}.
Arguments ts_reaction_class {ReactionClass}.
Arguments ts_molecule {ReactionClass}.
Arguments ts_active_bonds {ReactionClass}.

(** ** The relaxed scan (pes_1d.py, get_ts_guess_1dpes_scan) *)

Section RelaxedScan.
(** External collaborators: the global [Config.n_cores], the distance
    between two atoms of a molecule, and the electronic structure run
    behind [Calculation.run], [get_final_xyzs] and [get_energy]. *)
Variable ReactionClass : Type.
Variable Config_n_cores : nat.
Variable calc_bond_distance : Molecule → bond → Q.
Variable run_calculation : CalcArgs → Molecule → pyxyzs * energy.

(** The names and the arguments that persist over the loop. *)
Record scan_env : Type := {
  env_name : string;
  env_active_bond : bond;
  env_method : ElectronicStructureMethod;
  env_keywords : list string;
  env_mol_with_const : loc
}.

(** [Calculation(name=name + '_scan' + str(n), molecule=mol_with_const,
    method=method, opt=True, n_cores=Config.n_cores,
    distance_constraints={active_bond: dist}, keywords=keywords)] *)
Definition scan_call (env : scan_env) (n : nat) (dist : Q) : CalcArgs :=
  {| calc_name := env_name env +:+ "_scan" +:+ pretty n;
     calc_molecule := env_mol_with_const env;
     calc_method := env_method env;
     calc_opt := true;
     calc_n_cores := Config_n_cores;
     calc_distance_constraints := [(env_active_bond env, dist)];
     calc_keywords := env_keywords env |}.

(** Body of [for n, dist in enumerate(dists)]; the accumulator holds the
    state, [xyzs_list] and [energy_list]. *)
Definition scan_step (env : scan_env)
    (acc : pystate * list pyxyzs * list energy) (nd : nat * Q)
    : pystate * list pyxyzs * list energy :=
  let '(st, xyzs_list, energy_list) := acc in
  let const_opt := scan_call env nd.1 nd.2 in
  let given := heap st !!! env_mol_with_const env in
  let out := run_calculation const_opt given in
  ({| heap := alter (with_xyzs out.1) (env_mol_with_const env) (heap st);
      calls := calls st ++ [(const_opt, given)] |},
   xyzs_list ++ [out.1], energy_list ++ [out.2]).

Definition scan_loop (env : scan_env) (dists : list Q) (st : pystate)
    : pystate * list pyxyzs * list energy :=
  foldl (scan_step env) (st, [], []) (zip (seq 0 (length dists)) dists).

Definition get_ts_guess_1dpes_scan (mol : loc) (active_bond : bond)
    (n_steps : Z) (name : string) (reaction_class : ReactionClass)
    (method : ElectronicStructureMethod) (keywords : list string)
    (delta_dist : Q) (active_bonds_not_scanned : option (list bond))
    (st : pystate) : result (option (TSguess ReactionClass)) * pystate :=
  let '(mol_with_const, st1) := deepcopy mol st in
  let curr_dist := calc_bond_distance (heap st1 !!! mol) active_bond in
  match linspace curr_dist (fl_add curr_dist delta_dist) n_steps with
  | Raise e => (Raise e, st1)
  | Ok dists =>
    let env := {| env_name := name; env_active_bond := active_bond;
                  env_method := method; env_keywords := keywords;
                  env_mol_with_const := mol_with_const |} in
    let '(st2, xyzs_list, energy_list) := scan_loop env dists st1 in
    let '(tsguess_mol, st3) := deepcopy mol st2 in
    match find_1dpes_maximum_energy_xyzs dists xyzs_list energy_list with
    | Raise e => (Raise e, st3)
    | Ok peak =>
      let st4 := {| heap := alter (set_xyzs (mjoin peak)) tsguess_mol (heap st3);
                    calls := calls st3 |} in
      match xyzs (heap st4 !!! tsguess_mol) with
      | None => (Ok None, st4)
      | Some _ =>
        let active_bonds :=
          match active_bonds_not_scanned with
          | None => [active_bond]
          | Some others => [active_bond] ++ others
          end in
        (Ok (Some {| ts_name := name; ts_reaction_class := reaction_class;
                     ts_molecule := tsguess_mol;
                     ts_active_bonds := active_bonds |}), st4)
      end
    end
  end.

(** The molecule that step [n] of a scan starts from, when the scan was
    given [m] and the earlier steps returned [xyzs_list]. *)
Definition start_of_step (m : Molecule) (xyzs_list : list pyxyzs) (n : nat)
    : Molecule :=
  match n with
  | 0 => m
  | S k => with_xyzs (default None (xyzs_list !! k)) m
  end.
End RelaxedScan.

(** ** Core-atom selection (Molecule.get_core_atoms) *)

(** The atoms bonded to [a] in an undirected graph given by its edges. *)
Definition neighbours (g : list bond) (a : nat) : gset nat :=
  list_to_set (flat_map (λ e : bond,
    (if decide (e.1 = a) then [e.2] else []) ++
    (if decide (e.2 = a) then [e.1] else [])) g).

(** Breadth-first traversal bounded by a number of hops: [frontier] holds
    the atoms first reached in the last hop, [visited] all atoms reached. *)
Fixpoint bfs (g : list bond) (depth : nat) (frontier visited : gset nat)
    : gset nat :=
  match depth with
  | 0 => visited
  | S d =>
    let next := set_bind (neighbours g) frontier ∖ visited in
    bfs g d next (visited ∪ next)
  end.

Definition bfs_from (g : list bond) (depth : nat) (a : nat) : gset nat :=
  bfs g depth {[a]} {[a]}.

(** The pi-bond post-pass, one pair at a time. *)
Definition pi_close_step (s : gset nat) (p : bond) : gset nat :=
  if bool_decide (p.1 ∈ s) && negb (bool_decide (p.2 ∈ s)) then s ∪ {[p.2]}
  else if bool_decide (p.2 ∈ s) && negb (bool_decide (p.1 ∈ s)) then s ∪ {[p.1]}
  else s.

(** Modelled from the spec: [get_core_atoms] is a method of the Molecule
    class in autode/molecule.py, which is missing (only its test is at
    hand).  Section 4.1: "Fails (returns absent) if active_atoms is
    empty/unset", "otherwise performs, for every active atom, a breadth-first
    traversal over the graph up to depth hops, unioning all visited atoms
    across all active atoms (depth is inclusive: depth=0 yields only the
    active atoms themselves)", then "for every pair of atoms in pi_bonds, if
    exactly one endpoint is in the set, add the other endpoint". *)
Definition select_core (g : list bond) (active : option (list nat))
    (pi : option (list bond)) (depth : nat) : option (gset nat) :=
  match active with
  | None => None
  | Some [] => None
  | Some acts =>
    Some (foldl pi_close_step (⋃ (bfs_from g depth <$> acts)) (default [] pi))
  end.

Definition get_core_atoms (m : Molecule) (depth : nat) : option (gset nat) :=
  select_core (graph m) (active_atoms m) (pi_bonds m) depth.

(** ** Core stripping (Molecule.strip_core) *)

(** [BondRearrangement(forming_bonds=..., breaking_bonds=...)], read back
    through [fbonds] and [bbonds]. *)
Record BondRearrangement : Type := {
  fbonds : list bond;
  bbonds : list bond
}.

(** The original indices that are retained, in ascending order. *)
Definition kept_indices (core : gset nat) (n : nat) : list nat :=
  filter (λ i, i ∈ core) (seq 0 n).

(** The old-index to new-index dictionary built from the filtered order. *)
Definition index_map (kept : list nat) : gmap nat nat :=
  list_to_map (zip kept (seq 0 (length kept))).

(** A pair is kept, renumbered, when both ends have a new index. *)
Definition remap_pair (mp : gmap nat nat) (p : bond) : option bond :=
  match mp !! p.1, mp !! p.2 with
  | Some a, Some b => Some (a, b)
  | _, _ => None
  end.

Definition remap_pairs (mp : gmap nat nat) (l : list bond) : list bond :=
  omap (remap_pair mp) l.

Definition remap_indices (mp : gmap nat nat) (l : list nat) : list nat :=
  omap (λ i, mp !! i) l.

(** The atoms at the retained indices, in that order. *)
Definition keep_atoms (atoms : list atom_line) (kept : list nat)
    : list atom_line :=
  omap (λ i, atoms !! i) kept.

Definition pair_in_range (n : nat) (p : bond) : bool :=
  (p.1 <? n) && (p.2 <? n).

Definition rearrangement_in_range (n : nat) (br : BondRearrangement) : bool :=
  forallb (pair_in_range n) (fbonds br) && forallb (pair_in_range n) (bbonds br).

Definition covers_all (core : gset nat) (n : nat) : bool :=
  forallb (λ i, bool_decide (i ∈ core)) (seq 0 n).

Definition mark_fragment (b : bool) (m : Molecule) : Molecule :=
  {| name := name m; xyzs := xyzs m; graph := graph m; pi_bonds := pi_bonds m;
     active_atoms := active_atoms m; is_fragment := b;
     charge := charge m; mult := mult m |}.

(** Modelled from the spec: [strip_core] is a method of the Molecule class
    in autode/molecule.py, which is missing (only its test is at hand).
    Section 4.2: with [core_atoms] absent or covering every atom the call is
    a no-op that returns the structure "marked not a fragment" and the
    rearrangement unchanged; otherwise the atoms whose index is in
    [core_atoms] are kept in their original order, an old-to-new index
    mapping is built from that order and "applied uniformly to every
    reference list", a pair with an end outside the core is dropped, and the
    result is marked a fragment.  Section 7: a rearrangement pair that
    references an atom outside the structure is an InputError of the call,
    raised before any reduction is done. *)
Definition strip_core (m : Molecule) (core_atoms : option (gset nat))
    (bond_rearrang : BondRearrangement) : result (Molecule * BondRearrangement) :=
  match core_atoms with
  | None => Ok (mark_fragment false m, bond_rearrang)
  | Some core =>
    if covers_all core (n_atoms m) then Ok (mark_fragment false m, bond_rearrang)
    else if negb (rearrangement_in_range (n_atoms m) bond_rearrang)
    then Raise InputError
    else
      let kept := kept_indices core (n_atoms m) in
      let mp := index_map kept in
      let atoms := default [] (xyzs m) in
      Ok ({| name := name m;
             xyzs := Some (keep_atoms atoms kept);
             graph := remap_pairs mp (graph m);
             pi_bonds := option_map (remap_pairs mp) (pi_bonds m);
             active_atoms := option_map (remap_indices mp) (active_atoms m);
             is_fragment := true;
             charge := charge m; mult := mult m |},
          {| fbonds := remap_pairs mp (fbonds bond_rearrang);
             bbonds := remap_pairs mp (bbonds bond_rearrang) |})
  end.

(** *** The structure of the stripping test

    The reactant complex of BrC(CC(C)C)C1CC1CC with hydroxide: atoms 0-10
    are Br and the ten carbons in SMILES order, 11-29 their hydrogens, 30
    and 31 the O and H of hydroxide.  The coordinates of the fixture are
    produced by an embedding that is not reproduced here; stripping never
    reads them. *)
Definition fixture_labels : list string :=
  ["Br"] ++ replicate 10 "C" ++ replicate 19 "H" ++ ["O"; "H"].

Definition fixture_graph : list bond :=
  [(0,1); (1,2); (2,3); (3,4); (3,5); (1,6); (6,7); (7,8); (6,8); (8,9); (9,10);
   (1,11); (2,12); (2,13); (3,14); (4,15); (4,16); (4,17); (5,18); (5,19);
   (5,20); (6,21); (7,22); (7,23); (8,24); (9,25); (9,26); (10,27); (10,28);
   (10,29); (30,31)].

Definition fixture_reactant : Molecule :=
  {| name := "reactant";
     xyzs := Some ((λ l, (l, 0%Q, 0%Q, 0%Q)) <$> fixture_labels);
     graph := fixture_graph; pi_bonds := None;
     active_atoms := Some [0; 1; 30]; is_fragment := false;
     charge := (-1)%Z; mult := 1%Z |}.

Definition fixture_rearrangement : BondRearrangement :=
  {| fbonds := [(1, 30)]; bbonds := [(0, 1)] |}.

(** The environment of the loop in a call entered in state [st]. *)
Definition env_of (mol : loc) (active_bond : bond) (name : string)
    (method : ElectronicStructureMethod) (keywords : list string)
    (st : pystate) : scan_env :=
  {| env_name := name; env_active_bond := active_bond;
     env_method := method; env_keywords := keywords;
     env_mol_with_const := (deepcopy mol st).1 |}.

(** ** A small scan: H2 stretched along the x axis

    The molecule of the tests, [Molecule(name='h2', xyzs=[['H', 0, 0, 0],
    ['H', x, 0, 0]])], with a relaxation that places the second atom at the
    constrained distance and returns an energy with its maximum at 7/4, or
    fails (no geometry, no energy) at the distances selected by [fails_at]. *)
Definition h2 : Molecule :=
  {| name := "h2";
     xyzs := Some [("H", 0%Q, 0%Q, 0%Q); ("H", 1%Q, 0%Q, 0%Q)];
     graph := [(0, 1)]; pi_bonds := None; active_atoms := None;
     is_fragment := false; charge := 0%Z; mult := 1%Z |}.

Definition h2_bond_distance (m : Molecule) (b : bond) : Q :=
  match xyzs m with
  | Some [(_, x0, _, _); (_, x1, _, _)] => (x1 - x0)%Q
  | _ => 0%Q
  end.

Definition h2_relax (fails_at : Q → bool) (c : CalcArgs) (m : Molecule)
    : pyxyzs * energy :=
  match calc_distance_constraints c with
  | [(_, d)] =>
    if fails_at d then (None, None)
    else (Some [("H", 0%Q, 0%Q, 0%Q); ("H", d, 0%Q, 0%Q)],
          Some (- ((d - (7 # 4)) * (d - (7 # 4))))%Q)
  | _ => (None, None)
  end.

Definition h2_store : pystate :=
  {| heap := {[ 1%positive := h2 ]}; calls := [] |}.

Definition h2_env : scan_env :=
  env_of 1%positive (0, 1) "h2" XTB [] h2_store.

(** ** The ORCA wrapper (wrappers/ORCA.py): reading the output

    Lines of the output are ASCII text.  The builtins [float] and [int] are
    parameters of the model: they turn a token into a number or raise
    ValueError. *)

Module OrcaWrapper.

(** [c.isspace()] on ASCII. *)
Definition py_isspace (c : Ascii.ascii) : bool :=
  match c with
  | "009" | "010" | "011" | "012" | "013"
  | "028" | "029" | "030" | "031" | " " => true
  | _ => false
  end%char.

(** [s.split()]: the maximal runs of characters that are not white space. *)
Fixpoint split_go (cur : string) (s : string) : list string :=
  match s with
  | EmptyString => if decide (cur = "") then [] else [cur]
  | String c s' =>
    if py_isspace c
    then (if decide (cur = "") then [] else [cur]) ++ split_go "" s'
    else split_go (cur +:+ String c "") s'
  end.

Definition py_split (s : string) : list string := split_go "" s.

(** [s.startswith(pre)] *)
Fixpoint py_startswith (pre s : string) : bool :=
  match pre, s with
  | EmptyString, _ => true
  | String _ _, EmptyString => false
  | String a pre', String b s' =>
    if decide (a = b) then py_startswith pre' s' else false
  end.

(** [sub in s] *)
Fixpoint py_in (sub s : string) : bool :=
  if py_startswith sub s then true
  else match s with
       | EmptyString => false
       | String _ s' => py_in sub s'
       end.

(** [s.isdigit()] on ASCII: at least one character, all decimal digits. *)
Fixpoint all_digits (s : string) : bool :=
  match s with
  | EmptyString => true
  | String c s' => bool_decide (is_Some (Ascii.is_nat c)) && all_digits s'
  end.

Definition py_isdigit (s : string) : bool :=
  match s with
  | EmptyString => false
  | String _ _ => all_digits s
  end.

(** [s[:-4]] *)
Definition py_strip4 (s : string) : string :=
  String.substring 0 (String.length s - 4) s.

(** Truth value of a list, or of a string, that may be [None]. *)
Definition truthy {A} (o : option (list A)) : bool :=
  match o with
  | Some (_ :: _) => true
  | _ => false
  end.

Definition truthy_str (o : option string) : bool :=
  match o with
  | Some (String _ _) => true
  | _ => false
  end.

(** The attributes of a calculation that the wrapper reads and sets.  A
    dictionary is the list of its items in insertion order; the rows of
    [charges] and of [xyzs] hold numbers where the wrapper formats numbers. *)
Record Calc : Type := {
  name : string;
  keywords : list string;
  n_atoms : nat;
  n_cores : nat;
  max_core_mb : nat;
  charge : Z;
  mult : Z;
  xyzs : list atom_line;
  solvent_keyword : option string;
  optts_block : option string;
  core_atoms : option (list nat);
  bond_ids_to_add : option (list (list nat));
  distance_constraints : option (list (bond * Q));
  cartesian_constraints : option (list nat);
  partial_hessian : option (list nat);
  charges : option (list (list Q));
  input_filename : option string;
  output_filename : option string;
  additional_input_files : list string;
  output_file_lines : list string;
  rev_output_file_lines : list string
}.

Definition termination_markers : list string :=
  ["ORCA TERMINATED NORMALLY"; "The optimization did not converge";
   "HUGE, UNRELIABLE STEP WAS ABOUT TO BE TAKEN"].

(** The loop of [calculation_terminated_normally] from line [n_line] on. *)
Fixpoint terminated_from (n_line : nat) (lines : list string) : option bool :=
  match lines with
  | [] => None
  | line :: rest =>
    if existsb (λ substring, py_in substring line) termination_markers
    then Some true
    else if 30 <? n_line then Some false
    else terminated_from (S n_line) rest
  end.

(** [True], [False], or [None] when the loop runs off the end. *)
Definition calculation_terminated_normally (calc : Calc) : option bool :=
  terminated_from 0 (rev_output_file_lines calc).

Fixpoint optimisation_converged_lines (lines : list string) : bool :=
  match lines with
  | [] => false
  | line :: rest =>
    if py_in "THE OPTIMIZATION HAS CONVERGED" line then true
    else optimisation_converged_lines rest
  end.

Definition optimisation_converged (calc : Calc) : bool :=
  optimisation_converged_lines (rev_output_file_lines calc).

(** The loop of [optimisation_nearly_converged]. *)
Fixpoint nearly_converged_from (geom_conv_block : bool) (lines : list string)
    : bool :=
  match lines with
  | [] => false
  | line :: rest =>
    let block1 :=
      if geom_conv_block && py_in "Geometry convergence" line then false
      else geom_conv_block in
    let block2 :=
      if py_in "The optimization has not yet converged" line then true
      else block1 in
    if block2 && (length (py_split line) =? 5) &&
       bool_decide (last (py_split line) = Some "YES")
    then true
    else nearly_converged_from block2 rest
  end.

Definition optimisation_nearly_converged (calc : Calc) : bool :=
  nearly_converged_from false (rev_output_file_lines calc).

(** [range(0, stop, 3)] *)
Definition range_by_3 (stop : nat) : list nat :=
  (λ k, 3 * k) <$> seq 0 ((stop + 2) / 3).

(** [[l[i:i + 3] for i in range(0, len(l), 3)]] *)
Definition chunks_of_3 {A} (l : list A) : list (list A) :=
  (λ i, take 3 (drop i l)) <$> range_by_3 (length l).

Section Parsing.
Variable py_float : string → result Q.
Variable py_int : string → result Z.

Fixpoint get_energy_lines (lines : list string) : result (option Q) :=
  match lines with
  | [] => Ok None
  | line :: rest =>
    if py_in "FINAL SINGLE POINT ENERGY" line then
      token <- py_index (py_split line) 4 ;;
      e <- py_float token ;;
      Ok (Some e)
    else get_energy_lines rest
  end.

Definition get_energy (calc : Calc) : result (option Q) :=
  get_energy_lines (rev_output_file_lines calc).

(** The number of atoms the frequencies refer to. *)
Definition hessian_atoms (calc : Calc) : nat :=
  if truthy (partial_hessian calc)
  then length (default [] (partial_hessian calc))
  else n_atoms calc.

(** [float(l.split()[k])] *)
Definition float_field (k : nat) (l : string) : result Q :=
  token <- py_index (py_split l) k ;; py_float token.

(** Body of the loop of [get_imag_freqs]. *)
Definition imag_freqs_step (lines : list string) (n : nat)
    (imag_freqs : option (list Q)) (il : nat * string)
    : result (option (list Q)) :=
  if py_in "VIBRATIONAL FREQUENCIES" il.2 then
    let freq_lines := take (3 * n) (drop (il.1 + 5) lines) in
    freqs <- rmap (float_field 1) freq_lines ;;
    Ok (Some (List.filter (λ freq, Qlt_bool freq 0) freqs))
  else Ok imag_freqs.

Definition get_imag_freqs (calc : Calc) : result (option (list Q)) :=
  let lines := output_file_lines calc in
  rfold (imag_freqs_step lines (hessian_atoms calc)) None
        (zip (seq 0 (length lines)) lines).

(** The state of the loop of [get_normal_mode_displacements]. *)
Record modes_state : Type := {
  normal_mode_section : bool;
  values_sec : bool;
  displacements : list Q
}.

(** The position of the first occurrence of [x]. *)
Fixpoint first_index (x : Z) (l : list Z) : option nat :=
  match l with
  | [] => None
  | y :: l' => if decide (x = y) then Some 0 else S <$> first_index x l'
  end.

Definition modes_step (lines : list string) (n : nat) (mode_number : Z)
    (st : modes_state) (jl : nat * string) : result modes_state :=
  let line := jl.2 in
  let st1 :=
    if py_in "NORMAL MODES" line
    then {| normal_mode_section := true; values_sec := false;
            displacements := [] |}
    else st in
  let st2 :=
    if py_in "IR SPECTRUM" line
    then {| normal_mode_section := false; values_sec := false;
            displacements := displacements st1 |}
    else st1 in
  starts <-
    (if normal_mode_section st2 && (1 <? length (py_split line)) then
       first <- py_index (py_split line) 0 ;; Ok (py_startswith "0" first)
     else Ok false) ;;
  let st3 :=
    if starts
    then {| normal_mode_section := normal_mode_section st2; values_sec := true;
            displacements := displacements st2 |}
    else st2 in
  if values_sec st3 && negb (py_in "." line) && (1 <? length (py_split line))
  then
    mode_numbers <- rmap py_int (py_split line) ;;
    match first_index mode_number mode_numbers with
    | Some k =>
      disps <- rmap (float_field (k + 1))
                    (take (3 * n) (drop (jl.1 + 1) lines)) ;;
      Ok {| normal_mode_section := normal_mode_section st3;
            values_sec := values_sec st3; displacements := disps |}
    | None => Ok st3
    end
  else Ok st3.

Definition get_normal_mode_displacements (calc : Calc) (mode_number : Z)
    : result (option (list (list Q))) :=
  let lines := output_file_lines calc in
  let n := hessian_atoms calc in
  st <- rfold (modes_step lines n mode_number)
          {| normal_mode_section := false; values_sec := false;
             displacements := [] |}
          (zip (seq 0 (length lines)) lines) ;;
  let displacements_xyz := chunks_of_3 (displacements st) in
  if negb (length displacements_xyz =? n) then Ok None
  else Ok (Some displacements_xyz).

(** One line of an xyz file: [atom_label, x, y, z = line.split()]. *)
Definition xyz_line (line : string) : result atom_line :=
  match py_split line with
  | [atom_label; x; y; z] =>
    fx <- py_float x ;; fy <- py_float y ;; fz <- py_float z ;;
    Ok (atom_label, fx, fy, fz)
  | _ => Raise ValueError
  end.

(** The files on disk are a dictionary from names to lines. *)
Definition get_final_xyzs (fs : gmap string (list string)) (calc : Calc)
    : result (list atom_line) :=
  if truthy_str (output_filename calc) then
    let xyz_file_name :=
      py_strip4 (default "" (output_filename calc)) +:+ ".xyz" in
    match fs !! xyz_file_name with
    | Some file => rmap xyz_line (drop 2 file)
    | None => Ok []
    end
  else Ok [].

(** Body of the loop of [get_atomic_charges]; the state is
    [(charges_section, charges)]. *)
Definition charges_step (st : bool * list Q) (line : string)
    : result (bool * list Q) :=
  let st1 := if py_in "MULLIKEN ATOMIC CHARGES" line then (true, []) else st in
  let st2 := if py_in "Sum of atomic charges" line then (false, st1.2) else st1 in
  if st2.1 && (1 <? length (py_split line)) then
    first <- py_index (py_split line) 0 ;;
    if py_isdigit first then
      second <- py_index (py_split line) 1 ;;
      if bool_decide (second ≠ "Q") then
        match last (py_split line) with
        | Some token => q <- py_float token ;; Ok (true, st2.2 ++ [q])
        | None => Raise IndexError
        end
      else Ok st2
    else Ok st2
  else Ok st2.

Definition get_atomic_charges (calc : Calc) : result (list Q) :=
  st <- rfold charges_step (false, []) (output_file_lines calc) ;; Ok st.2.

(** Body of the loop of [get_gradients]; the state is
    [(gradients_section, gradients)]. *)
Definition gradients_step (st : bool * list (Q * Q * Q)) (line : string)
    : result (bool * list (Q * Q * Q)) :=
  let st1 := if py_in "CARTESIAN GRADIENT" line then (true, st.2) else st in
  let st2 :=
    if py_in "Difference to translation invariance" line then (false, st1.2)
    else st1 in
  if st2.1 then
    match py_split line with
    | [atom; _; _; x; y; z] =>
      if bool_decide (atom ≠ "Q") then
        fx <- py_float x ;; fy <- py_float y ;; fz <- py_float z ;;
        Ok (true, st2.2 ++ [(fx, fy, fz)])
      else Ok st2
    | _ => Ok st2
    end
  else Ok st2.

Definition get_gradients (calc : Calc) : result (list (Q * Q * Q)) :=
  st <- rfold gradients_step (false, []) (output_file_lines calc) ;; Ok st.2.
End Parsing.

(** *** Writing the input file ([generate_input]) *)

Definition nl : string := String "010" "".
Definition dquote : string := String "034" "".

(** [s.lower()] on ASCII. *)
Definition lower_char (c : Ascii.ascii) : Ascii.ascii :=
  let n := nat_of_ascii c in
  if (65 <=? n) && (n <=? 90) then ascii_of_nat (n + 32) else c.

Fixpoint py_lower (s : string) : string :=
  match s with
  | EmptyString => EmptyString
  | String c s' => String (lower_char c) (py_lower s')
  end.

(** [sep.join(l)] *)
Fixpoint py_join (sep : string) (l : list string) : string :=
  match l with
  | [] => ""
  | [x] => x
  | x :: l' => x +:+ sep +:+ py_join sep l'
  end.

(** [print] of the items with [end=end_]: the items separated by blanks and
    the end string are appended to the text of the file. *)
Definition py_print (items : list string) (end_ : string) (file : string)
    : string :=
  file +:+ py_join " " items +:+ end_.

(** [l.remove(x)]: the first occurrence goes, ValueError if there is none. *)
Fixpoint py_remove (x : string) (l : list string) : result (list string) :=
  match l with
  | [] => Raise ValueError
  | y :: l' =>
    if decide (x = y) then Ok l' else (r <- py_remove x l' ;; Ok (y :: r))
  end.

Definition vdw_gaussian_solvent_dict : list (string * string) :=
  [("water", "Water"); ("acetone", "Acetone");
   ("acetonitrile", "Acetonitrile"); ("benzene", "Benzene");
   ("carbon tetrachloride", "CCl4"); ("dichloromethane", "CH2Cl2");
   ("chloroform", "Chloroform"); ("cyclohexane", "Cyclohexane");
   ("n,n-dimethylformamide", "DMF"); ("dimethylsulfoxide", "DMSO");
   ("ethanol", "Ethanol"); ("n-hexane", "Hexane"); ("methanol", "Methanol");
   ("1-octanol", "Octanol"); ("pyridine", "Pyridine");
   ("tetrahydrofuran", "THF"); ("toluene", "Toluene")].

(** [d[k]] when [k in d.keys()]. *)
Fixpoint dict_get (k : string) (d : list (string * string)) : option string :=
  match d with
  | [] => None
  | (k', v) :: d' => if decide (k = k') then Some v else dict_get k d'
  end.

(** The solvent of the calculation as the dictionary names it, when it has
    an entry. *)
Definition vdw_solvent (calc : Calc) : option string :=
  match solvent_keyword calc with
  | Some solvent => dict_get solvent vdw_gaussian_solvent_dict
  | None => None
  end.

(** Body of [for keyword in keywords]; the state is
    [(keywords, opt_or_sp)], the list being the one iterated over. *)
Definition keyword_body (calc : Calc) (keyword : string)
    (st : list string * bool) : result (list string * bool) :=
  st1 <-
    (if py_in "opt" (py_lower keyword) then
       let opt_or_sp :=
         if bool_decide (py_lower keyword ≠ "optts") then true else st.2 in
       if n_atoms calc =? 1
       then (kws <- py_remove keyword st.1 ;; Ok (kws, opt_or_sp))
       else Ok (st.1, opt_or_sp)
     else Ok st) ;;
  let st2 :=
    if bool_decide (py_lower keyword = "sp") then (st1.1, true) else st1 in
  if bool_decide (py_lower keyword = "freq") then
    if truthy (partial_hessian calc)
    then (kws <- py_remove keyword st2.1 ;; Ok (kws ++ ["NumFreq"], st2.2))
    else Ok st2
  else Ok st2.

(** The [for] loop over a list that its body changes: the iterator holds a
    position, reads the element there while there is one, and moves on.  The
    list never grows, so [fuel] steps suffice when [fuel] is the length of
    the list. *)
Fixpoint keyword_loop (fuel : nat) (calc : Calc) (idx : nat)
    (st : list string * bool) : result (list string * bool) :=
  match fuel with
  | 0 => Ok st
  | S fuel' =>
    match st.1 !! idx with
    | None => Ok st
    | Some keyword =>
      st' <- keyword_body calc keyword st ;;
      keyword_loop fuel' calc (S idx) st'
    end
  end.

(** The keywords of the input and [opt_or_sp], after the loop and the
    addition of the CPCM keyword. *)
Definition input_keywords (calc : Calc) : result (list string * bool) :=
  st <- keyword_loop (length (keywords calc)) calc 0 (keywords calc, false) ;;
  match vdw_solvent calc with
  | Some solvent =>
    if st.2 then Ok (st.1 ++ ["CPCM(" +:+ solvent +:+ ")"], st.2) else Ok st
  | None => Ok st
  end.

(** The comprehension over [bond_ids_to_add] inside [try]: an entry with
    fewer than two indices stops it, what was printed stays. *)
Fixpoint print_bond_ids (l : list (list nat)) (file : string) : string :=
  match l with
  | [] => file
  | bond_ids :: rest =>
    match bond_ids with
    | b0 :: b1 :: _ =>
      print_bond_ids rest
        (py_print ["%geom" +:+ nl +:+ "modify_internal" +:+ nl +:+ "{ B";
                   pretty b0; pretty b1; "A } end" +:+ nl +:+ "end"] nl file)
    | _ => file
    end
  end.

Section Writing.
Variable str_float : Q → string.
Variable format_xyz_line : atom_line → string.
Variable format_charge_line : Q → Q → Q → Q → string.

(** The text written to the input file, block by block. *)
Definition input_text (calc : Calc) (kws : list string) (opt_or_sp : bool)
    : string :=
  let f := py_print ("!" :: kws) nl "" in
  let f :=
    match solvent_keyword calc with
    | Some (String c solvent) =>
      if bool_decide (is_Some (vdw_solvent calc)) && opt_or_sp
      then py_print ["%cpcm" +:+ nl +:+ " surfacetype vdw_gaussian" +:+ nl
                     +:+ "end"] nl f
      else py_print ["%cpcm" +:+ nl +:+ "smd true" +:+ nl +:+ "SMDsolvent "
                     +:+ dquote +:+ String c solvent +:+ dquote +:+ nl
                     +:+ "end"] nl f
    | _ => f
    end in
  let f :=
    match optts_block calc with
    | Some (String c block) =>
      let f := py_print [String c block] nl f in
      let f :=
        if truthy (core_atoms calc) && (25 <? n_atoms calc)
        then py_print ["Hybrid_Hess ["
                       +:+ py_join " " (pretty <$> default [] (core_atoms calc))
                       +:+ "] end"] nl f
        else f in
      py_print ["end"] nl f
    | _ => f
    end in
  let f :=
    if truthy (bond_ids_to_add calc)
    then print_bond_ids (default [] (bond_ids_to_add calc)) f
    else f in
  let f :=
    if truthy (distance_constraints calc) then
      let f := py_print ["%geom Constraints"] nl f in
      let f :=
        foldl (λ f (item : bond * Q),
                 py_print ["{ B"; pretty item.1.1; pretty item.1.2;
                           str_float item.2; "C }"] nl f)
              f (default [] (distance_constraints calc)) in
      py_print ["    end" +:+ nl +:+ "end"] nl f
    else f in
  let f :=
    if truthy (cartesian_constraints calc) then
      let f := py_print ["%geom Constraints"] nl f in
      let f :=
        foldl (λ f (atom_id : nat), py_print ["{ C"; pretty atom_id; "C }"] nl f)
              f (default [] (cartesian_constraints calc)) in
      py_print ["    end" +:+ nl +:+ "end"] nl f
    else f in
  let f :=
    if n_atoms calc <? 33 then py_print ["%geom MaxIter 100 end"] nl f else f in
  let f :=
    if truthy (partial_hessian calc) then
      let f := py_print ["%freq" +:+ nl +:+ "Partial_Hess {"] "" f in
      let f := py_print (pretty <$> default [] (partial_hessian calc)) "" f in
      py_print ["} end" +:+ nl +:+ "end"] nl f
    else f in
  let f :=
    match charges calc with
    | Some _ =>
      py_print ["% pointcharges " +:+ dquote +:+ name calc +:+ "_orca.pc"
                +:+ dquote] nl f
    | None => f
    end in
  let f :=
    if 1 <? n_cores calc
    then py_print ["%pal nprocs " +:+ pretty (n_cores calc) +:+ nl +:+ "end"]
                  nl f
    else f in
  let f := py_print ["%output " +:+ nl +:+ "xyzfile=True " +:+ nl +:+ "end "]
                    nl f in
  let f := py_print ["%scf " +:+ nl +:+ "maxiter 250 " +:+ nl +:+ "end"] nl f in
  let f := py_print ["% maxcore"; pretty (max_core_mb calc)] nl f in
  let f := py_print ["*xyz"; pretty (charge calc); pretty (mult calc)] nl f in
  let f := foldl (λ f line, py_print [format_xyz_line line] nl f) f (xyzs calc) in
  py_print ["*"] nl f.

(** One row of the point-charge file:
    [[line[-1]] + line[1:4]] through the four-field format. *)
Definition charge_row (line : list Q) : result string :=
  match last line, take 3 (drop 1 line) with
  | Some q, [x; y; z] => Ok (format_charge_line q x y z)
  | _, _ => Raise IndexError
  end.

(** The calculation with its file names set, and the files written. *)
Definition generate_input (calc : Calc)
    : result (Calc * list (string * string)) :=
  let input_name := name calc +:+ "_orca.inp" in
  let output_name := name calc +:+ "_orca.out" in
  kw <- input_keywords calc ;;
  let input_file := (input_name, input_text calc kw.1 kw.2) in
  if truthy (charges calc) then
    rows <- rmap charge_row (default [] (charges calc)) ;;
    let pc_text :=
      foldl (λ f row, py_print [row] nl f)
            (py_print [pretty (length (default [] (charges calc)))] nl "")
            rows in
    Ok ({| name := name calc; keywords := keywords calc;
           n_atoms := n_atoms calc; n_cores := n_cores calc;
           max_core_mb := max_core_mb calc; charge := charge calc;
           mult := mult calc; xyzs := xyzs calc;
           solvent_keyword := solvent_keyword calc;
           optts_block := optts_block calc; core_atoms := core_atoms calc;
           bond_ids_to_add := bond_ids_to_add calc;
           distance_constraints := distance_constraints calc;
           cartesian_constraints := cartesian_constraints calc;
           partial_hessian := partial_hessian calc; charges := charges calc;
           input_filename := Some input_name;
           output_filename := Some output_name;
           additional_input_files :=
             additional_input_files calc ++ [name calc +:+ "_orca.pc"];
           output_file_lines := output_file_lines calc;
           rev_output_file_lines := rev_output_file_lines calc |},
        [input_file; (name calc +:+ "_orca.pc", pc_text)])
  else
    Ok ({| name := name calc; keywords := keywords calc;
           n_atoms := n_atoms calc; n_cores := n_cores calc;
           max_core_mb := max_core_mb calc; charge := charge calc;
           mult := mult calc; xyzs := xyzs calc;
           solvent_keyword := solvent_keyword calc;
           optts_block := optts_block calc; core_atoms := core_atoms calc;
           bond_ids_to_add := bond_ids_to_add calc;
           distance_constraints := distance_constraints calc;
           cartesian_constraints := cartesian_constraints calc;
           partial_hessian := partial_hessian calc; charges := charges calc;
           input_filename := Some input_name;
           output_filename := Some output_name;
           additional_input_files := additional_input_files calc;
           output_file_lines := output_file_lines calc;
           rev_output_file_lines := rev_output_file_lines calc |},
        [input_file]).
End Writing.

(** Readers of plain decimal numerals ([-12.5], [42]), for running the
    parsers on examples; [float] and [int] accept these and more. *)
Fixpoint digits_value (s : string) (acc : Z) (n : nat) : option (Z * nat) :=
  match s with
  | EmptyString => Some (acc, n)
  | String c s' =>
    match Ascii.is_nat c with
    | Some d => digits_value s' (10 * acc + Z.of_nat d)%Z (S n)
    | None => None
    end
  end.

Fixpoint cut_at_dot (s : string) : string * option string :=
  match s with
  | EmptyString => ("", None)
  | String c s' =>
    if decide (c = "."%char) then ("", Some s')
    else (String c (cut_at_dot s').1, (cut_at_dot s').2)
  end.

Definition unsigned_decimal (s : string) : result Q :=
  match digits_value (cut_at_dot s).1 0 0,
        digits_value (default "" (cut_at_dot s).2) 0 0 with
  | Some (i, ni), Some (f, nf) =>
    if ni + nf =? 0 then Raise ValueError
    else Ok (inject_Z i + Qmake f (Z.to_pos (10 ^ Z.of_nat nf)))%Q
  | _, _ => Raise ValueError
  end.

Definition decimal_float (s : string) : result Q :=
  match s with
  | String "-" s' => q <- unsigned_decimal s' ;; Ok (- q)%Q
  | _ => unsigned_decimal s
  end.

Definition decimal_int (s : string) : result Z :=
  match s with
  | EmptyString => Raise ValueError
  | String "-" s' =>
    match digits_value s' 0 0 with
    | Some (i, S _) => Ok (- i)%Z
    | _ => Raise ValueError
    end
  | _ =>
    match digits_value s 0 0 with
    | Some (i, _) => Ok i
    | None => Raise ValueError
    end
  end.

End OrcaWrapper.

(** ** Pieces of ORCA output for running the parsers *)

Definition sample_calc (lines : list string) : OrcaWrapper.Calc :=
  {| OrcaWrapper.name := "h";
     OrcaWrapper.keywords := ["SP"; "PBE0"];
     OrcaWrapper.n_atoms := 1;
     OrcaWrapper.n_cores := 1;
     OrcaWrapper.max_core_mb := 4000;
     OrcaWrapper.charge := 0%Z;
     OrcaWrapper.mult := 2%Z;
     OrcaWrapper.xyzs := [("H", 0%Q, 0%Q, 0%Q)];
     OrcaWrapper.solvent_keyword := None;
     OrcaWrapper.optts_block := None;
     OrcaWrapper.core_atoms := None;
     OrcaWrapper.bond_ids_to_add := None;
     OrcaWrapper.distance_constraints := None;
     OrcaWrapper.cartesian_constraints := None;
     OrcaWrapper.partial_hessian := None;
     OrcaWrapper.charges := None;
     OrcaWrapper.input_filename := None;
     OrcaWrapper.output_filename := Some "h_orca.out";
     OrcaWrapper.additional_input_files := [];
     OrcaWrapper.output_file_lines := lines;
     OrcaWrapper.rev_output_file_lines := reverse lines |}.

Definition sample_frequencies : list string :=
  ["VIBRATIONAL FREQUENCIES"; "-----------------------"; "";
   "Scaling factor for frequencies =  1.000000000"; "";
   "   0:         0.00 cm**-1"; "   1:      -425.50 cm**-1";
   "   2:        12.25 cm**-1"].

Definition sample_modes : list string :=
  ["NORMAL MODES"; "------------"; "";
   "                  0          1          2";
   "      0       0.000000   0.500000   0.100000";
   "      1       0.000000   0.250000   0.100000";
   "      2       0.000000   0.125000   0.100000";
   "IR SPECTRUM"].

Definition sample_charges : list string :=
  ["MULLIKEN ATOMIC CHARGES"; "-----------------------";
   "   0 C :   -0.250000"; "   1 H :    0.250000";
   "Sum of atomic charges:    0.0000000"].

Definition sample_gradient : list string :=
  ["CARTESIAN GRADIENT"; "------------------"; "";
   "   1   C   :    0.500000   -0.250000    0.125000"].

Definition sample_gradient_end : string :=
  "Difference to translation invariance:".

Definition sample_convergence : list string :=
  ["Geometry convergence";
   "RMS gradient        0.0000300000            0.0001000000      YES";
   "The optimization has not yet converged - more geometry cycles are needed"].

Definition sample_xyz_file : list string :=
  ["2"; "Coordinates from ORCA-job h_orca";
   "H 0.000000 0.000000 0.000000"; "H 0.700000 0.000000 0.000000"].

(** A constrained optimisation of H2 in water with one point charge, and
    stand-ins for the number formats of Python. *)
Definition sample_scan_calc : OrcaWrapper.Calc :=
  {| OrcaWrapper.name := "h2_scan0";
     OrcaWrapper.keywords := ["LooseOpt"; "PBE0"];
     OrcaWrapper.n_atoms := 2;
     OrcaWrapper.n_cores := 4;
     OrcaWrapper.max_core_mb := 4000;
     OrcaWrapper.charge := 0%Z;
     OrcaWrapper.mult := 1%Z;
     OrcaWrapper.xyzs := [("H", 0%Q, 0%Q, 0%Q); ("H", 1%Q, 0%Q, 0%Q)];
     OrcaWrapper.solvent_keyword := Some "water";
     OrcaWrapper.optts_block := None;
     OrcaWrapper.core_atoms := None;
     OrcaWrapper.bond_ids_to_add := None;
     OrcaWrapper.distance_constraints := Some [((0, 1), (3 # 2)%Q)];
     OrcaWrapper.cartesian_constraints := None;
     OrcaWrapper.partial_hessian := None;
     OrcaWrapper.charges := Some [[0; 1; 2; 3; 1 # 2]%Q];
     OrcaWrapper.input_filename := None;
     OrcaWrapper.output_filename := None;
     OrcaWrapper.additional_input_files := [];
     OrcaWrapper.output_file_lines := [];
     OrcaWrapper.rev_output_file_lines := [] |}.

Definition sample_str_float (q : Q) : string :=
  pretty (Qnum q) +:+ "/" +:+ pretty (Zpos (Qden q)).

Definition sample_format_xyz_line (line : atom_line) : string :=
  OrcaWrapper.py_join " "
    [line.1.1.1; sample_str_float line.1.1.2; sample_str_float line.1.2;
     sample_str_float line.2].

Definition sample_format_charge_line (q x y z : Q) : string :=
  OrcaWrapper.py_join " " (sample_str_float <$> [q; x; y; z]).

(** What [generate_input] gives on the sample. *)
Definition sample_generated : OrcaWrapper.Calc * list (string * string) :=
  match OrcaWrapper.generate_input sample_str_float sample_format_xyz_line
          sample_format_charge_line sample_scan_calc with
  | Ok out => out
  | Raise _ => (sample_scan_calc, [])
  end.

(** ** Specification vocabulary for the ORCA wrapper *)

(** A line carries one of the three markers of termination. *)
Definition marked (line : string) : Prop :=
  existsb (λ substring, OrcaWrapper.py_in substring line)
          OrcaWrapper.termination_markers = true.

(** A line of five fields whose last field is YES. *)
Definition converged_row (line : string) : Prop :=
  length (OrcaWrapper.py_split line) = 5 ∧
  last (OrcaWrapper.py_split line) = Some "YES".

(** The text [t'] is the text [t] with something written after it. *)
Definition extends (t t' : string) : Prop := ∃ more, t' = t +:+ more.

(** A keyword that sets [opt_or_sp]. *)
Definition opt_or_sp_keyword (keyword : string) : bool :=
  (OrcaWrapper.py_in "opt" (OrcaWrapper.py_lower keyword) &&
   bool_decide (OrcaWrapper.py_lower keyword ≠ "optts")) ||
  bool_decide (OrcaWrapper.py_lower keyword = "sp").

(** ** Specification vocabulary for the peak finder *)

(** Index [i] is an interior strict local maximum of the energies [es]:
    both neighbours exist and lie strictly below. *)
Definition strict_local_max (es : list Q) (i : nat) : Prop :=
  ∃ a b c, 1 ≤ i ∧ es !! (i - 1) = Some a ∧ es !! i = Some b ∧
           es !! (i + 1) = Some c ∧ (a < b)%Q ∧ (c < b)%Q.

Definition strictly_increasing (es : list Q) : Prop :=
  ∀ i a b, es !! i = Some a → es !! (i + 1) = Some b → (a < b)%Q.

Definition strictly_decreasing (es : list Q) : Prop :=
  ∀ i a b, es !! i = Some a → es !! (i + 1) = Some b → (b < a)%Q.

(** [k] is the winner among the strict local maxima below index [m]: none
    of them is higher, and none as high comes earlier. *)
Definition best_peak_below (es : list Q) (m k : nat) (p : Q) : Prop :=
  k < m ∧ strict_local_max es k ∧ es !! k = Some p ∧
  ∀ j q, j < m → strict_local_max es j → es !! j = Some q →
         (q <= p)%Q ∧ ((q == p)%Q → k ≤ j).

(** The state [(peak_e, xyzs_peak_energy)] of the loop after the iterations
    [1 .. m-1] on a complete curve whose minimum is [min_e]. *)
Definition peak_inv {X} (xyzs_list : list X) (es : list Q) (min_e : Q)
    (m : nat) (st : energy * option X) : Prop :=
  (st = (Some min_e, None) ∧ ∀ j, j < m → ¬ strict_local_max es j) ∨
  (∃ k p x, st = (Some p, Some x) ∧ xyzs_list !! k = Some x ∧
            best_peak_below es m k p).

(** The geometry [x] is the one collected at an interior step [i] of a scan
    of [n] distances, and the energy collected there is present and lies
    strictly above the present energies of both neighbouring steps. *)
Definition interior_peak_at {X} (n : nat) (xyzs_list : list X)
    (energy_list : list energy) (i : nat) (x : X) : Prop :=
  1 ≤ i ∧ i + 1 < n ∧ xyzs_list !! i = Some x ∧
  ∃ a e c, energy_list !! (i - 1) = Some (Some a) ∧
           energy_list !! i = Some (Some e) ∧
           energy_list !! (i + 1) = Some (Some c) ∧ (a < e)%Q ∧ (c < e)%Q.

(** ** Specification vocabulary for the scan *)

(** The accumulator of the scan loop after [k] steps over [dists], when the
    loop was entered in state [st0] with the working copy holding [m0]. *)
Record scan_inv (Config_n_cores : nat)
    (run_calculation : CalcArgs → Molecule → pyxyzs * energy)
    (env : scan_env) (m0 : Molecule) (st0 : pystate)
    (dists : list Q) (k : nat)
    (acc : pystate * list pyxyzs * list energy) : Prop := {
  inv_xyzs_length : length acc.1.2 = k;
  inv_energy_length : length acc.2 = k;
  inv_frame : ∀ l, l ≠ env_mol_with_const env →
    heap acc.1.1 !! l = heap st0 !! l;
  inv_current :
    heap acc.1.1 !! env_mol_with_const env = Some (start_of_step m0 acc.1.2 k);
  inv_calls :
    calls acc.1.1 = calls st0 ++
      imap (λ i d, (scan_call Config_n_cores env i d,
                    start_of_step m0 acc.1.2 i)) (take k dists);
  inv_results : ∀ i d, i < k → dists !! i = Some d →
    let out := run_calculation (scan_call Config_n_cores env i d)
                 (start_of_step m0 acc.1.2 i) in
    acc.1.2 !! i = Some out.1 ∧ acc.2 !! i = Some out.2
}.





(** * Proofs *)

(** ** Results and loops *)

Lemma rfold_app {A B} (f : A → B → result A) (a : A) (l1 l2 : list B) :
  rfold f a (l1 ++ l2) = (a' <- rfold f a l1 ;; rfold f a' l2).
Proof.
  revert a. induction l1 as [|b l1 IH]; intros a; simpl; [done|].
  destruct (f a b) as [a'|e]; simpl; [apply IH | done].
Qed.

Lemma py_index_Some {A} (l : list A) i x : l !! i = Some x → py_index l i = Ok x.
Proof. unfold py_index. by intros ->. Qed.

(** ** Comparisons of present energies *)

Lemma Qlt_bool_true x y : Qlt_bool x y = true ↔ (x < y)%Q.
Proof.
  unfold Qlt_bool. rewrite Qlt_alt.
  destruct (x ?= y)%Q; split; congruence.
Qed.

Lemma Qlt_bool_false x y : Qlt_bool x y = false ↔ (y <= x)%Q.
Proof.
  rewrite <- not_true_iff_false, Qlt_bool_true. split.
  - apply Qnot_lt_le.
  - apply Qle_not_lt.
Qed.

(** Turn the boolean comparisons among the hypotheses into orderings. *)
Ltac Qlt_bool_order :=
  repeat match goal with
  | H : Qlt_bool _ _ = true |- _ => apply Qlt_bool_true in H
  | H : Qlt_bool _ _ = false |- _ => apply Qlt_bool_false in H
  end.

(** ** The builtin minimum on present energies *)

Lemma py_min_from_present (m : Q) (es : list Q) :
  ∃ m', py_min_from (Some m) (Some <$> es) = Ok (Some m') ∧
        (m' = m ∨ m' ∈ es) ∧ (m' <= m)%Q ∧ ∀ e, e ∈ es → (m' <= e)%Q.
Proof.
  revert m. induction es as [|x es IH]; intros m; simpl.
  - exists m. split_and!; [done | by left | lra | intros e He; inversion He].
  - destruct (Qlt_bool x m) eqn:Hlt.
    + apply Qlt_bool_true in Hlt.
      destruct (IH x) as (m' & Hrun & Hin & Hle & Hall).
      exists m'. split_and!; [done | | lra |].
      * right. destruct Hin as [->|Hin]; [left | by right].
      * intros e He. apply elem_of_cons in He as [->|He]; [done | by apply Hall].
    + apply Qlt_bool_false in Hlt.
      destruct (IH m) as (m' & Hrun & Hin & Hle & Hall).
      exists m'. split_and!; [done | | done |].
      * destruct Hin as [->|Hin]; [by left | right; by right].
      * intros e He. apply elem_of_cons in He as [->|He]; [lra | by apply Hall].
Qed.

Lemma py_min_present (es : list Q) :
  es ≠ [] →
  ∃ m, py_min (Some <$> es) = Ok (Some m) ∧ m ∈ es ∧ ∀ e, e ∈ es → (m <= e)%Q.
Proof.
  destruct es as [|x es]; [done|]. intros _. simpl.
  destruct (py_min_from_present x es) as (m & Hrun & Hin & Hle & Hall).
  exists m. split_and!; [done | |].
  - destruct Hin as [->|Hin]; [left | by right].
  - intros e He. apply elem_of_cons in He as [->|He]; [done | by apply Hall].
Qed.

Lemma plot_curve_present (es : list Q) (m : Q) :
  ∃ ys, plot_curve (Some <$> es) (Some m) = Ok ys.
Proof.
  unfold plot_curve. induction es as [|x es [ys IH]]; [by eexists|].
  rewrite fmap_cons. cbn [rmap py_sub rbind]. rewrite IH. by eexists.
Qed.

(** ** The loop of the peak finder on present energies *)

Section PeakLoop.
Context {X : Type}.
Implicit Types (xyzs_list : list X) (es : list Q).

Lemma peak_step_present xyzs_list es p best i a b c x :
  es !! (i - 1) = Some a → es !! i = Some b → es !! (i + 1) = Some c →
  xyzs_list !! i = Some x →
  peak_step xyzs_list (Some <$> es) (Some p, best) i =
    Ok (if Qlt_bool p b && Qlt_bool a b && Qlt_bool c b
        then (Some b, Some x) else (Some p, best)).
Proof.
  intros Ha Hb Hc Hx. unfold peak_step.
  rewrite (py_index_Some _ i (Some b)) by (by rewrite list_lookup_fmap, Hb).
  rewrite (py_index_Some _ (i - 1) (Some a)) by (by rewrite list_lookup_fmap, Ha).
  rewrite (py_index_Some _ (i + 1) (Some c)) by (by rewrite list_lookup_fmap, Hc).
  rewrite (py_index_Some _ i x) by done.
  cbn. destruct (Qlt_bool p b); cbn; [|done].
  destruct (Qlt_bool a b); cbn; [|done].
  by destruct (Qlt_bool c b).
Qed.

Lemma strict_local_max_at es i a b c :
  es !! (i - 1) = Some a → es !! i = Some b → es !! (i + 1) = Some c →
  strict_local_max es i → (a < b)%Q ∧ (c < b)%Q.
Proof.
  intros Ha Hb Hc (a' & b' & c' & _ & Ha' & Hb' & Hc' & ? & ?).
  by simplify_eq.
Qed.

Lemma peak_inv_step xyzs_list es min_e i st a b c x :
  1 ≤ i → (∀ e, e ∈ es → (min_e <= e)%Q) →
  es !! (i - 1) = Some a → es !! i = Some b → es !! (i + 1) = Some c →
  xyzs_list !! i = Some x →
  peak_inv xyzs_list es min_e i st →
  ∃ st', peak_step xyzs_list (Some <$> es) st i = Ok st' ∧
         peak_inv xyzs_list es min_e (S i) st'.
Proof.
  intros Hi Hmin Ha Hb Hc Hx Hinv.
  assert (Hlow : (min_e <= a)%Q) by (apply Hmin; by eapply list_elem_of_lookup_2).
  destruct Hinv as [[-> Hnone] | (k & p & x0 & -> & Hk & Hlt & Hslm & Hp & Hbest)].
  - rewrite (peak_step_present _ _ _ _ _ a b c x) by done.
    eexists; split; [done|].
    destruct (Qlt_bool min_e b) eqn:E1, (Qlt_bool a b) eqn:E2,
             (Qlt_bool c b) eqn:E3; cbn [andb]; Qlt_bool_order.
    1: { right. exists i, b, x. split_and!; [done..|].
         unfold best_peak_below. split_and!; [lia | | done |].
         - exists a, b, c. by split_and!.
         - intros j q Hj Hsj Hq. assert (j = i) as ->.
           { destruct (decide (j = i)); [done|]. exfalso. apply (Hnone j); [lia|done]. }
           simplify_eq. split; [lra | done]. }
    all: left; split; [done|]; intros j Hj Hsj;
      destruct (decide (j = i)) as [->|]; [|apply (Hnone j); [lia|done]];
      destruct (strict_local_max_at _ _ _ _ _ Ha Hb Hc Hsj); lra.
  - rewrite (peak_step_present _ _ _ _ _ a b c x) by done.
    eexists; split; [done|].
    destruct (Qlt_bool p b) eqn:E1, (Qlt_bool a b) eqn:E2,
             (Qlt_bool c b) eqn:E3; cbn [andb]; Qlt_bool_order.
    1: { right. exists i, b, x. split_and!; [done..|].
         unfold best_peak_below. split_and!; [lia | | done |].
         - exists a, b, c. by split_and!.
         - intros j q Hj Hsj Hq. destruct (decide (j = i)) as [->|].
           + simplify_eq. split; [lra | done].
           + destruct (Hbest j q) as [Hle _]; [lia | done | done |].
             split; [lra | intros Heq; lra]. }
    all: right; exists k, p, x0; split_and!; [done..|];
      unfold best_peak_below; split_and!; [lia | done | done |];
      intros j q Hj Hsj Hq; destruct (decide (j = i)) as [->|];
      [| apply Hbest; [lia | done | done]];
      simplify_eq; destruct (strict_local_max_at _ _ _ _ _ Ha Hb Hc Hsj);
      split; [lra | intros _; lia].
Qed.

Lemma peak_loop_present xyzs_list es min_e n :
  length xyzs_list = length es → (∀ e, e ∈ es → (min_e <= e)%Q) →
  n + 2 ≤ length es ∨ n = 0 →
  ∃ st, rfold (peak_step xyzs_list (Some <$> es)) (Some min_e, None) (seq 1 n)
          = Ok st ∧ peak_inv xyzs_list es min_e (S n) st.
Proof.
  intros Hlen Hmin. induction n as [|n IH]; intros Hn.
  - eexists; split; [done|]. left. split; [done|].
    intros j Hj (? & ? & ? & ? & _). lia.
  - destruct IH as (st & Hrun & Hinv); [lia|].
    rewrite seq_S, rfold_app, Hrun. cbn [rbind rfold].
    assert (S n + 1 < length es) as Hnext by lia.
    destruct (lookup_lt_is_Some_2 es (S n - 1)) as [a Ha]; [lia|].
    destruct (lookup_lt_is_Some_2 es (S n)) as [b Hb]; [lia|].
    destruct (lookup_lt_is_Some_2 es (S n + 1)) as [c Hc]; [lia|].
    destruct (lookup_lt_is_Some_2 xyzs_list (S n)) as [x Hx]; [lia|].
    destruct (peak_inv_step xyzs_list es min_e (S n) st a b c x)
      as (st' & Hstep & Hinv'); [lia | done..|].
    replace (1 + n) with (S n) by lia. rewrite Hstep. by exists st'.
Qed.

(** What the peak finder returns when every energy is present and the three
    lists have one entry per step. *)
Lemma find_peak_present {D} (dists : list D) xyzs_list es :
  length dists = length es → length xyzs_list = length es →
  ∃ r, find_1dpes_maximum_energy_xyzs dists xyzs_list (Some <$> es) = Ok r ∧
    ((r = None ∧ ∀ j, ¬ strict_local_max es j) ∨
     (∃ k p x, r = Some x ∧ xyzs_list !! k = Some x ∧
               best_peak_below es (length es) k p)).
Proof.
  intros Hd Hx. unfold find_1dpes_maximum_energy_xyzs.
  rewrite length_fmap, Hx, orb_diag.
  destruct (decide (es = [])) as [->|Hne].
  { exists None. split; [done|]. left. split; [done|].
    intros j (a & b & c & _ & _ & Hb & _). by rewrite lookup_nil in Hb. }
  replace (length es =? 0) with false
    by (symmetry; apply Nat.eqb_neq; destruct es; simpl; [done|lia]).
  destruct (py_min_present es Hne) as (m & -> & Hin & Hmin). cbn [rbind].
  destruct (peak_loop_present xyzs_list es m (length dists - 1 - 1))
    as (st & -> & Hinv); [done | done | lia |]. cbn [rbind].
  destruct (plot_curve_present es m) as [ys ->]. cbn [rbind].
  exists (st.2). split; [done|].
  assert (Hall : ∀ j, strict_local_max es j → j < S (length dists - 1 - 1)).
  { intros j (a & b & c & ? & _ & _ & Hc & _).
    apply lookup_lt_Some in Hc. lia. }
  destruct Hinv as [[-> Hnone] | (k & p & x & -> & Hk & Hlt & Hslm & Hp & Hbest)].
  - left. split; [done|]. intros j Hj. apply (Hnone j); [by apply Hall | done].
  - right. exists k, p, x. split_and!; [done | done |].
    unfold best_peak_below. split_and!; [| done | done |].
    + apply lookup_lt_Some in Hp. lia.
    + intros j q _ Hsj Hq. apply Hbest; [by apply Hall | done | done].
Qed.
End PeakLoop.

(** ** Absent energies *)

Lemma py_min_from_absent (m : energy) (l : list energy) :
  None ∈ l → py_min_from m l = Raise TypeError.
Proof.
  revert m. induction l as [|x l IH]; intros m Hin; [by inversion Hin|].
  simpl. destruct x as [x|]; [|done]. destruct m as [m|]; [|done].
  simpl. apply IH. apply elem_of_cons in Hin as [?|?]; [done|done].
Qed.

Lemma py_min_absent (l : list energy) :
  None ∈ l → 2 ≤ length l → py_min l = Raise TypeError.
Proof.
  destruct l as [|x [|y l]]; simpl; [lia..|]. intros Hin _.
  destruct x as [x|]; [|by destruct y].
  destruct y as [y|]; [|done]. simpl. apply py_min_from_absent.
  by repeat (apply elem_of_cons in Hin as [?|Hin]; [done|]).
Qed.

Lemma find_peak_absent {D X} (dists : list D) (xyzs_list : list X)
    (energy_list : list energy) :
  length dists = length energy_list → length xyzs_list = length energy_list →
  None ∈ energy_list →
  find_1dpes_maximum_energy_xyzs dists xyzs_list energy_list = Raise TypeError.
Proof.
  intros Hd Hx Hin. unfold find_1dpes_maximum_energy_xyzs.
  rewrite Hx, orb_diag.
  destruct energy_list as [|e [|e' l]]; [by inversion Hin | |].
  - apply list_elem_of_singleton in Hin as <-. simpl in Hd. by rewrite Hd.
  - cbn [length Nat.eqb]. by rewrite py_min_absent by (done || simpl; lia).
Qed.

(** ** The scan loop *)

Lemma with_xyzs_twice x y m : with_xyzs x (with_xyzs y m) = with_xyzs x m.
Proof. done. Qed.

Lemma with_xyzs_start x m xyzs_list n :
  with_xyzs x (start_of_step m xyzs_list n) = with_xyzs x m.
Proof. by destruct n. Qed.

Lemma start_of_step_app m xyzs_list x n :
  n ≤ length xyzs_list →
  start_of_step m (xyzs_list ++ [x]) n = start_of_step m xyzs_list n.
Proof.
  destruct n as [|k]; [done|]. intros Hk. simpl.
  by rewrite lookup_app_l by lia.
Qed.

Section ScanLoop.
Variable Config_n_cores : nat.
Variable run_calculation : CalcArgs → Molecule → pyxyzs * energy.

Local Abbreviation step := (scan_step Config_n_cores run_calculation).
Local Abbreviation call := (scan_call Config_n_cores).

Lemma scan_inv_step env m0 st0 dists k acc d :
  dists !! k = Some d →
  scan_inv Config_n_cores run_calculation env m0 st0 dists k acc →
  scan_inv Config_n_cores run_calculation env m0 st0 dists (S k) (step env acc (k, d)).
Proof.
  intros Hd [Hxl Hel Hframe Hcur Hcalls Hres].
  destruct acc as [[st xyzs_list] energy_list]. simpl in *.
  unfold scan_step. cbn [fst snd].
  rewrite (lookup_total_correct _ _ _ Hcur).
  set (out := run_calculation (call env k d) (start_of_step m0 xyzs_list k)).
  split; cbn [fst snd heap calls].
  - rewrite length_app. simpl. lia.
  - rewrite length_app. simpl. lia.
  - intros l Hl. rewrite lookup_alter_ne by done. by apply Hframe.
  - rewrite lookup_alter_eq, Hcur. simpl. rewrite with_xyzs_start.
    by rewrite lookup_app_r, Hxl, Nat.sub_diag by lia.
  - rewrite Hcalls, (take_S_r _ _ _ Hd), imap_app, <- app_assoc. f_equal.
    assert (length (take k dists) = k) as Hk.
    { rewrite length_take. apply lookup_lt_Some in Hd. lia. }
    f_equal.
    + apply imap_ext. intros i x Hi. f_equal.
      rewrite start_of_step_app; [done|].
      apply lookup_lt_Some in Hi. lia.
    + simpl. rewrite Hk, Nat.add_0_r.
      by rewrite start_of_step_app by lia.
  - intros i d' Hi Hd'. rewrite start_of_step_app by lia.
    destruct (decide (i = k)) as [->|Hne].
    + assert (d' = d) as -> by congruence.
      rewrite !lookup_app_r by lia. rewrite Hxl, Hel, Nat.sub_diag. done.
    + rewrite !lookup_app_l by lia. apply Hres; [lia | done].
Qed.

Lemma scan_inv_take env m0 st0 dists k :
  heap st0 !! env_mol_with_const env = Some m0 → k ≤ length dists →
  scan_inv Config_n_cores run_calculation env m0 st0 dists k
    (foldl (step env) (st0, [], [])
           (take k (zip (seq 0 (length dists)) dists))).
Proof.
  intros Hm0. induction k as [|k IH]; intros Hk.
  - rewrite take_0. simpl. split; simpl; try done.
    + by rewrite app_nil_r.
    + intros; lia.
  - destruct (lookup_lt_is_Some_2 dists k) as [d Hd]; [lia|].
    assert (zip (seq 0 (length dists)) dists !! k = Some (k, d)) as Hz.
    { apply lookup_zip_with_Some. exists k, d. split_and!; [done | | done].
      apply lookup_seq. lia. }
    rewrite (take_S_r _ _ _ Hz), foldl_app. simpl.
    apply scan_inv_step; [done|]. apply IH. lia.
Qed.

(** The whole loop: one entry per distance, every other object of the
    store untouched, the calculations logged in the order of [dists]. *)
Lemma scan_loop_inv env m0 st0 dists :
  heap st0 !! env_mol_with_const env = Some m0 →
  scan_inv Config_n_cores run_calculation env m0 st0 dists (length dists)
    (scan_loop Config_n_cores run_calculation env dists st0).
Proof.
  intros Hm0. unfold scan_loop.
  pose proof (scan_inv_take env m0 st0 dists (length dists) Hm0) as H.
  rewrite take_ge in H; [by apply H|].
  rewrite length_zip_with, length_seq. lia.
Qed.
End ScanLoop.

(** ** Copies *)

Lemma deepcopy_fresh l st : heap st !! (deepcopy l st).1 = None.
Proof. apply not_elem_of_dom, is_fresh. Qed.

Lemma deepcopy_copy l st :
  heap (deepcopy l st).2 !! (deepcopy l st).1 = Some (heap st !!! l).
Proof. apply lookup_insert_eq. Qed.

Lemma deepcopy_frame l st l' x :
  heap st !! l' = Some x → heap (deepcopy l st).2 !! l' = Some x.
Proof.
  intros Hl'. simpl. rewrite lookup_insert_ne; [done|].
  intros <-. pose proof (deepcopy_fresh l st) as Hf. simpl in Hf. congruence.
Qed.

Lemma deepcopy_calls l st : calls (deepcopy l st).2 = calls st.
Proof. done. Qed.

(** ** Rounding to binary64 *)

(** *** Powers of two and the binary logarithm *)











(** *** The nearest integer *)














(** *** Order, sign and idempotence *)














(** ** Sample distances *)












Lemma linspace_length (start stop : Q) (num : Z) (dists : list Q) :
  linspace start stop num = Ok dists → length dists = Z.to_nat num.
Proof.
  unfold linspace. destruct (num <? 0)%Z; [done|]. intros [= <-].
  assert (∀ l : list Q, length l = Z.to_nat num →
            length (if (1 <? num)%Z
                    then <[Z.to_nat num - 1 := fl_mul stop 1]> l else l)
            = Z.to_nat num) as Hins.
  { intros l Hl. destruct (1 <? num)%Z; by rewrite ?length_insert. }
  apply Hins. rewrite length_fmap.
  repeat case_match; by rewrite !length_fmap, length_seq.
Qed.


(** ** The scan as a whole *)

Section ScanRun.
Variable ReactionClass : Type.
Variable Config_n_cores : nat.
Variable calc_bond_distance : Molecule → bond → Q.
Variable run_calculation : CalcArgs → Molecule → pyxyzs * energy.

Local Abbreviation scan :=
  (get_ts_guess_1dpes_scan ReactionClass Config_n_cores calc_bond_distance
     run_calculation).

(** What the call does once the distances are known: the loop runs on the
    working copy, then the peak is written into a second copy. *)
Lemma scan_unfold mol active_bond n_steps name reaction_class method keywords
    delta_dist others st m dists :
  heap st !! mol = Some m →
  linspace (calc_bond_distance m active_bond)
           (fl_add (calc_bond_distance m active_bond) delta_dist) n_steps = Ok dists →
  let env := env_of mol active_bond name method keywords st in
  ∃ st2 xyzs_list energy_list,
    scan_loop Config_n_cores run_calculation env dists (deepcopy mol st).2
      = (st2, xyzs_list, energy_list) ∧
    scan_inv Config_n_cores run_calculation env m (deepcopy mol st).2 dists
      (length dists) (st2, xyzs_list, energy_list) ∧
    heap st2 !! mol = Some m ∧
    scan mol active_bond n_steps name reaction_class method keywords
         delta_dist others st =
      match find_1dpes_maximum_energy_xyzs dists xyzs_list energy_list with
      | Raise e => (Raise e, (deepcopy mol st2).2)
      | Ok peak =>
        (match mjoin peak with
         | None => Ok None
         | Some _ =>
           Ok (Some {| ts_name := name; ts_reaction_class := reaction_class;
                       ts_molecule := (deepcopy mol st2).1;
                       ts_active_bonds :=
                         match others with
                         | None => [active_bond]
                         | Some l => [active_bond] ++ l
                         end |})
         end,
         {| heap := alter (set_xyzs (mjoin peak)) (deepcopy mol st2).1
                      (heap (deepcopy mol st2).2);
            calls := calls st2 |})
      end.
Proof.
  intros Hm Hlin env.
  assert (heap (deepcopy mol st).2 !! mol = Some m) as Hm1
    by (by apply deepcopy_frame).
  assert (heap (deepcopy mol st).2 !! env_mol_with_const env = Some m) as Hcopy.
  { unfold env, env_of. cbn [env_mol_with_const].
    by rewrite deepcopy_copy, (lookup_total_correct _ _ _ Hm). }
  pose proof (scan_loop_inv Config_n_cores run_calculation env m _ dists Hcopy)
    as Hinv.
  destruct (scan_loop Config_n_cores run_calculation env dists (deepcopy mol st).2)
    as [[st2 xyzs_list] energy_list] eqn:Hloop.
  exists st2, xyzs_list, energy_list.
  assert (heap st2 !! mol = Some m) as Hm2.
  { rewrite <- Hm1. apply (inv_frame _ _ _ _ _ _ _ _ Hinv).
    intros Heq. pose proof (deepcopy_fresh mol st) as Hf.
    change (env_mol_with_const env) with (deepcopy mol st).1 in Heq.
    rewrite <- Heq in Hf. congruence. }
  split_and!; [done..|].
  unfold get_ts_guess_1dpes_scan.
  change (deepcopy mol st) with ((deepcopy mol st).1, (deepcopy mol st).2).
  cbv beta iota. rewrite (lookup_total_correct _ _ _ Hm1), Hlin.
  fold (env_of mol active_bond name method keywords st). fold env.
  rewrite Hloop.
  change (deepcopy mol st2) with ((deepcopy mol st2).1, (deepcopy mol st2).2).
  cbv beta iota.
  destruct (find_1dpes_maximum_energy_xyzs dists xyzs_list energy_list)
    as [peak|e]; [|done].
  unfold deepcopy. cbn [fst snd heap calls].
  erewrite lookup_total_correct
    by (by rewrite lookup_alter_eq, lookup_insert_eq).
  by destruct (mjoin peak).
Qed.
End ScanRun.

(** * The peak finder on complete curves *)

(** Two maxima, the higher one second: the later geometry is returned. *)
Example find_peak_higher_second :
  find_1dpes_maximum_energy_xyzs [1; 2; 3; 4; 5]%Q ["a"; "b"; "c"; "d"; "e"]
    [Some 1; Some 3; Some 2; Some (7 # 2); Some 1]%Q = Ok (Some "d").
Proof. reflexivity. Qed.

(** Two maxima, the higher one first. *)
Example find_peak_higher_first :
  find_1dpes_maximum_energy_xyzs [1; 2; 3; 4; 5]%Q ["a"; "b"; "c"; "d"; "e"]
    [Some 1; Some (7 # 2); Some 2; Some 3; Some 1]%Q = Ok (Some "b").
Proof. reflexivity. Qed.

(** Two maxima of the same height: the earlier one stays. *)
Example find_peak_tie :
  find_1dpes_maximum_energy_xyzs [1; 2; 3; 4; 5]%Q ["a"; "b"; "c"; "d"; "e"]
    [Some 1; Some 3; Some 2; Some (6 # 2); Some 1]%Q = Ok (Some "b").
Proof. reflexivity. Qed.

(** C2: when every energy is present and the curve has an interior strict
    local maximum, the peak finder returns the geometry of the interior
    strict local maximum of highest energy; among several of that energy it
    returns the one of lowest index. *)
Theorem find_peak_highest_local_max {D X} (dists : list D) (xyzs_list : list X)
    (es : list Q) :
  length dists = length es → length xyzs_list = length es →
  (∃ i, strict_local_max es i) →
  ∃ k p x,
    find_1dpes_maximum_energy_xyzs dists xyzs_list (Some <$> es) = Ok (Some x) ∧
    xyzs_list !! k = Some x ∧ es !! k = Some p ∧ strict_local_max es k ∧
    (∀ j q, strict_local_max es j → es !! j = Some q → (q <= p)%Q) ∧
    (∀ j q, strict_local_max es j → es !! j = Some q → (q == p)%Q → k ≤ j).
Proof.
  intros Hd Hx [i Hi].
  destruct (find_peak_present dists xyzs_list es Hd Hx)
    as (r & Hrun & [[_ Hnone] | (k & p & x & -> & Hk & _ & Hslm & Hp & Hbest)]).
  { by destruct (Hnone i). }
  exists k, p, x. split_and!; [done..| |].
  - intros j q Hj Hq. apply (Hbest j q); [|done..].
    destruct Hj as (? & ? & c & _ & _ & _ & Hc & _).
    apply lookup_lt_Some in Hc. lia.
  - intros j q Hj Hq. apply (Hbest j q); [|done..].
    destruct Hj as (? & ? & c & _ & _ & _ & Hc & _).
    apply lookup_lt_Some in Hc. lia.
Qed.

Lemma find_peak_highest_local_max_witness :
  ∃ k p x,
    find_1dpes_maximum_energy_xyzs [1; 2; 3; 4; 5]%Q ["a"; "b"; "c"; "d"; "e"]
      (Some <$> [1; 3; 2; 7 # 2; 1]%Q) = Ok (Some x) ∧
    ["a"; "b"; "c"; "d"; "e"] !! k = Some x ∧
    [1; 3; 2; 7 # 2; 1]%Q !! k = Some p ∧
    strict_local_max [1; 3; 2; 7 # 2; 1]%Q k ∧
    (∀ j q, strict_local_max [1; 3; 2; 7 # 2; 1]%Q j →
            [1; 3; 2; 7 # 2; 1]%Q !! j = Some q → (q <= p)%Q) ∧
    (∀ j q, strict_local_max [1; 3; 2; 7 # 2; 1]%Q j →
            [1; 3; 2; 7 # 2; 1]%Q !! j = Some q → (q == p)%Q → k ≤ j).
Proof.
  apply (find_peak_highest_local_max [1; 2; 3; 4; 5]%Q
           ["a"; "b"; "c"; "d"; "e"] [1; 3; 2; 7 # 2; 1]%Q);
    [reflexivity | reflexivity |].
  exists 1, 1%Q, 3%Q, 2%Q. repeat split; reflexivity || lia.
Defined.

Lemma strictly_increasing_no_max es i :
  strictly_increasing es → ¬ strict_local_max es i.
Proof.
  intros Hinc (a & b & c & _ & _ & Hb & Hc & _ & Hcb).
  pose proof (Hinc _ _ _ Hb Hc). lra.
Qed.

Lemma strictly_decreasing_no_max es i :
  strictly_decreasing es → ¬ strict_local_max es i.
Proof.
  intros Hdec (a & b & c & Hi & Ha & Hb & _ & Hab & _).
  replace i with (i - 1 + 1) in Hb by lia.
  pose proof (Hdec _ _ _ Ha Hb). lra.
Qed.

(** Every interior strict local maximum lies strictly above the value the
    builtin minimum returns. *)
Lemma strict_local_max_above_min es i b m :
  strict_local_max es i → es !! i = Some b →
  py_min (Some <$> es) = Ok (Some m) → (m < b)%Q.
Proof.
  intros (a & b' & c & _ & Ha & Hb & _ & Hab & _) Hb' Hmin. simplify_eq.
  assert (es ≠ []) as Hne by (intros ->; by rewrite lookup_nil in Hb).
  destruct (py_min_present es Hne) as (m' & Hmin' & _ & Hall).
  assert (m' = m) as -> by congruence.
  pose proof (Hall a (list_elem_of_lookup_2 _ _ _ Ha)). lra.
Qed.

(** C4: on a complete curve that is strictly increasing, or strictly
    decreasing, or more generally has no interior strict local maximum above
    the minimum of the curve, the peak finder returns [None]: no geometry of
    an end point or of a plateau is ever returned. *)
Theorem find_peak_none_without_max {D X} (dists : list D) (xyzs_list : list X)
    (es : list Q) :
  length dists = length es → length xyzs_list = length es →
  strictly_increasing es ∨ strictly_decreasing es ∨
    (∀ i b m, strict_local_max es i → es !! i = Some b →
              py_min (Some <$> es) = Ok (Some m) → ¬ (m < b)%Q) →
  find_1dpes_maximum_energy_xyzs dists xyzs_list (Some <$> es) = Ok None.
Proof.
  intros Hd Hx Hshape.
  destruct (find_peak_present dists xyzs_list es Hd Hx)
    as (r & Hrun & [[-> _] | (k & p & x & -> & _ & _ & Hslm & Hp & _)]); [done|].
  exfalso. destruct Hshape as [Hinc | [Hdec | Hlow]].
  - by apply (strictly_increasing_no_max es k).
  - by apply (strictly_decreasing_no_max es k).
  - assert (es ≠ []) as Hne by (intros ->; by rewrite lookup_nil in Hp).
    destruct (py_min_present es Hne) as (m & Hmin & _ & _).
    apply (Hlow k p m); [done..|].
    by eapply strict_local_max_above_min.
Qed.

Lemma find_peak_none_without_max_witness :
  find_1dpes_maximum_energy_xyzs [1; 2; 3; 4]%Q ["a"; "b"; "c"; "d"]
    (Some <$> [1; 2; 3; 4]%Q) = Ok None.
Proof.
  apply (find_peak_none_without_max [1; 2; 3; 4]%Q ["a"; "b"; "c"; "d"]
           [1; 2; 3; 4]%Q); [reflexivity | reflexivity |].
  left. intros i a b Ha Hb.
  destruct i as [|[|[|[|i]]]]; simpl in Ha, Hb; simplify_eq; reflexivity.
Defined.

(** C10: on a complete curve every interior strict local maximum exceeds the
    minimum from which the running peak starts, so the comparison with the
    running peak never hides a maximum: the peak finder returns a geometry
    exactly when the curve has an interior strict local maximum. *)
Theorem find_peak_some_iff_local_max {D X} (dists : list D) (xyzs_list : list X)
    (es : list Q) :
  length dists = length es → length xyzs_list = length es →
  (∀ i b m, strict_local_max es i → es !! i = Some b →
            py_min (Some <$> es) = Ok (Some m) → (m < b)%Q) ∧
  ∃ r, find_1dpes_maximum_energy_xyzs dists xyzs_list (Some <$> es) = Ok r ∧
       (is_Some r ↔ ∃ i, strict_local_max es i).
Proof.
  intros Hd Hx. split.
  - intros i b m. apply strict_local_max_above_min.
  - destruct (find_peak_present dists xyzs_list es Hd Hx)
      as (r & Hrun & [[-> Hnone] | (k & p & x & -> & _ & _ & Hslm & _)]).
    + exists None. split; [done|]. split.
      * by intros [? ?].
      * intros [i Hi]. by destruct (Hnone i).
    + exists (Some x). split; [done|]. split; [by exists k | by eexists].
Qed.

Lemma find_peak_some_iff_local_max_witness :
  (∀ i b m, strict_local_max [1; 3; 2]%Q i → [1; 3; 2]%Q !! i = Some b →
            py_min (Some <$> [1; 3; 2]%Q) = Ok (Some m) → (m < b)%Q) ∧
  ∃ r, find_1dpes_maximum_energy_xyzs [1; 2; 3]%Q ["a"; "b"; "c"]
         (Some <$> [1; 3; 2]%Q) = Ok r ∧
       (is_Some r ↔ ∃ i, strict_local_max [1; 3; 2]%Q i).
Proof.
  apply (find_peak_some_iff_local_max [1; 2; 3]%Q ["a"; "b"; "c"] [1; 3; 2]%Q);
    reflexivity.
Defined.

(** * Failed steps *)

Lemma all_present (l : list energy) : None ∉ l → ∃ es, l = Some <$> es.
Proof.
  induction l as [|[x|] l IH]; intros Hnot.
  - by exists [].
  - destruct IH as [es ->]; [intros Hin; apply Hnot; by right|].
    by exists (x :: es).
  - destruct Hnot. by left.
Qed.

(** A scan of five steps between 1.0 and 2.5 whose third step fails: the
    five points are collected, the third with an absent energy, and the
    peak search raises. *)
Lemma failed_step_raises :
  ∃ st' xyzs_list energy_list,
    scan_loop 1 (h2_relax (Qeq_bool (7 # 4))) h2_env
      [1; 11 # 8; 14 # 8; 17 # 8; 5 # 2]%Q (deepcopy 1%positive h2_store).2
      = (st', xyzs_list, energy_list) ∧
    length xyzs_list = 5 ∧ length energy_list = 5 ∧
    energy_list !! 2 = Some None ∧
    find_1dpes_maximum_energy_xyzs [1; 11 # 8; 14 # 8; 17 # 8; 5 # 2]%Q
      xyzs_list energy_list = Raise TypeError ∧
    (get_ts_guess_1dpes_scan unit 1 h2_bond_distance
       (h2_relax (Qeq_bool (7 # 4))) 1%positive (0, 1) 5 "h2" tt XTB []
       (3 # 2)%Q None h2_store).1 = Raise TypeError.
Proof. do 3 eexists. split; [vm_compute; reflexivity|]. by vm_compute. Qed.

(** C1, as the code has it: a step whose relaxation fails is recorded like
    any other, with the absent geometry and energy the relaxation returned,
    and the loop goes on, so a scan collects one point per distance.  The
    peak finder does not set such points aside: on the collected points it
    raises TypeError as soon as one energy is absent, and returns normally
    when every energy is present. *)
Theorem failed_step_recorded_not_discarded (Config_n_cores : nat)
    (run_calculation : CalcArgs → Molecule → pyxyzs * energy)
    (env : scan_env) (dists : list Q) (st : pystate) (m : Molecule) :
  heap st !! env_mol_with_const env = Some m →
  ∃ st' xyzs_list energy_list,
    scan_loop Config_n_cores run_calculation env dists st
      = (st', xyzs_list, energy_list) ∧
    length xyzs_list = length dists ∧ length energy_list = length dists ∧
    (∀ n d, dists !! n = Some d →
       let out := run_calculation (scan_call Config_n_cores env n d)
                    (start_of_step m xyzs_list n) in
       xyzs_list !! n = Some out.1 ∧ energy_list !! n = Some out.2) ∧
    (None ∈ energy_list →
       find_1dpes_maximum_energy_xyzs dists xyzs_list energy_list
         = Raise TypeError) ∧
    (None ∉ energy_list →
       ∃ r, find_1dpes_maximum_energy_xyzs dists xyzs_list energy_list = Ok r).
Proof.
  intros Hm.
  pose proof (scan_loop_inv Config_n_cores run_calculation env m st dists Hm)
    as [Hxl Hel _ _ _ Hres].
  destruct (scan_loop Config_n_cores run_calculation env dists st)
    as [[st' xyzs_list] energy_list]. simpl in *.
  exists st', xyzs_list, energy_list. split_and!; [done..| | |].
  - intros n d Hd. apply Hres; [|done]. by apply lookup_lt_Some in Hd.
  - intros Hin. apply find_peak_absent; [lia | lia | done].
  - intros Hnot. destruct (all_present _ Hnot) as [es ->].
    rewrite length_fmap in *.
    destruct (find_peak_present dists xyzs_list es) as (r & Hr & _);
      [lia | lia |]. by exists r.
Qed.

Lemma failed_step_recorded_not_discarded_witness :
  ∃ st' xyzs_list energy_list,
    scan_loop 1 (h2_relax (Qeq_bool (7 # 4))) h2_env
      [1; 11 # 8; 14 # 8; 17 # 8; 5 # 2]%Q (deepcopy 1%positive h2_store).2
      = (st', xyzs_list, energy_list) ∧
    length xyzs_list = 5 ∧ length energy_list = 5 ∧
    (∀ n d, [1; 11 # 8; 14 # 8; 17 # 8; 5 # 2]%Q !! n = Some d →
       let out := h2_relax (Qeq_bool (7 # 4)) (scan_call 1 h2_env n d)
                    (start_of_step h2 xyzs_list n) in
       xyzs_list !! n = Some out.1 ∧ energy_list !! n = Some out.2) ∧
    (None ∈ energy_list →
       find_1dpes_maximum_energy_xyzs [1; 11 # 8; 14 # 8; 17 # 8; 5 # 2]%Q
         xyzs_list energy_list = Raise TypeError) ∧
    (None ∉ energy_list →
       ∃ r, find_1dpes_maximum_energy_xyzs [1; 11 # 8; 14 # 8; 17 # 8; 5 # 2]%Q
              xyzs_list energy_list = Ok r).
Proof.
  apply (failed_step_recorded_not_discarded 1 (h2_relax (Qeq_bool (7 # 4)))
           h2_env [1; 11 # 8; 14 # 8; 17 # 8; 5 # 2]%Q
           (deepcopy 1%positive h2_store).2 h2).
  vm_compute. reflexivity.
Defined.

(** * The relaxed scan *)


(** In binary64 the samples need not differ: a [delta_dist] below half the
    spacing of the floats at the current distance gives the same distance
    at every step. *)
Example scan_distances_may_coincide :
  linspace 1 (fl_add 1 (1 # 2 ^ 60)) 3 = Ok [1; 1; 1]%Q.
Proof. by vm_compute. Qed.

(** Twelve samples from 1.0 to 2.5: the ten inner samples are the floats
    [numpy.linspace] returns, none of them the exact [1 + i * 3 / 22]. *)
Example linspace_twelve_samples :
  linspace 1 (fl_add 1 (3 # 2)) 12 =
    Ok [1; 2558863424642327 # 2251799813685248;
        5731854071198813 # 4503599627370496;
        1586495323278243 # 1125899906842624;
        3480054257513565 # 2251799813685248;
        946779467117661 # 562949953421312;
        8188362958855447 # 4503599627370496;
        4401245090384803 # 2251799813685248;
        2354154350670941 # 1125899906842624;
        5015372312298961 # 2251799813685248;
        665304490407005 # 281474976710656; 5 # 2]%Q.
Proof. by vm_compute. Qed.

Section ScanClaims.
Variable ReactionClass : Type.
Variable Config_n_cores : nat.
Variable calc_bond_distance : Molecule → bond → Q.
Variable run_calculation : CalcArgs → Molecule → pyxyzs * energy.

Local Abbreviation scan :=
  (get_ts_guess_1dpes_scan ReactionClass Config_n_cores calc_bond_distance
     run_calculation).


(** C9: the call leaves every object that was in the store as it was, the
    caller's molecule among them; each relaxation is given a copy allocated
    by the call; and the molecule of a returned TS guess is another fresh
    copy, equal to the input molecule but for its coordinates. *)
Theorem scan_preserves_caller_molecule (mol : loc) (active_bond : bond)
    (n_steps : Z) (name : string) (reaction_class : ReactionClass)
    (method : ElectronicStructureMethod) (keywords : list string)
    (delta_dist : Q) (others : option (list bond)) (st : pystate)
    (m : Molecule) :
  heap st !! mol = Some m →
  let out := scan mol active_bond n_steps name reaction_class method keywords
                  delta_dist others st in
  heap out.2 !! mol = Some m ∧
  (∀ l x, heap st !! l = Some x → heap out.2 !! l = Some x) ∧
  (∃ new_calls, calls out.2 = calls st ++ new_calls ∧
     ∀ c g, (c, g) ∈ new_calls →
       calc_molecule c ≠ mol ∧ heap st !! calc_molecule c = None) ∧
  (∀ ts, out.1 = Ok (Some ts) →
     ts_molecule ts ≠ mol ∧ heap st !! ts_molecule ts = None ∧
     ∃ geometry,
       heap out.2 !! ts_molecule ts = Some (set_xyzs (Some geometry) m)).
Proof.
  intros Hm out.
  assert (Hfresh_ne : ∀ l, heap st !! l = None → l ≠ mol)
    by (intros l Hl ->; congruence).
  destruct (linspace (calc_bond_distance m active_bond)
              (fl_add (calc_bond_distance m active_bond) delta_dist) n_steps)
    as [dists|e] eqn:Hlin.
  2: { assert (out = (Raise e, (deepcopy mol st).2)) as ->.
       { unfold out, get_ts_guess_1dpes_scan.
         change (deepcopy mol st) with ((deepcopy mol st).1, (deepcopy mol st).2).
         cbv beta iota.
         rewrite (lookup_total_correct _ _ _ (deepcopy_frame mol st _ _ Hm)).
         by rewrite Hlin. }
       cbn [fst snd]. split_and!.
       - by apply deepcopy_frame.
       - intros l x. apply deepcopy_frame.
       - exists []. rewrite app_nil_r. split; [done|]. intros c g Hin.
         by inversion Hin.
       - intros ts Hts. discriminate. }
  destruct (scan_unfold ReactionClass Config_n_cores calc_bond_distance
              run_calculation mol active_bond n_steps name reaction_class
              method keywords delta_dist others st m dists Hm Hlin)
    as (st2 & xyzs_list & energy_list & Hloop & Hinv & Hm2 & Hrun).
  destruct Hinv as [_ _ Hframe _ Hcalls _]. simpl in *.
  set (env := env_of mol active_bond name method keywords st) in *.
  assert (Hpre2 : ∀ l x, heap st !! l = Some x → heap st2 !! l = Some x).
  { intros l x Hl. rewrite Hframe.
    - rewrite lookup_insert_ne; [done|]. intros Heq.
      pose proof (deepcopy_fresh mol st) as Hf. simpl in Hf. congruence.
    - intros ->. pose proof (deepcopy_fresh mol st) as Hf. simpl in Hf.
      unfold env, env_of in Hl. simpl in Hl. congruence. }
  assert (Hpre3 : ∀ l x, heap st !! l = Some x →
                         heap (deepcopy mol st2).2 !! l = Some x)
    by (intros l x Hl; by apply deepcopy_frame, Hpre2).
  assert (Hnew : heap st !! (deepcopy mol st2).1 = None).
  { destruct (heap st !! (deepcopy mol st2).1) as [x|] eqn:Hx; [|done].
    apply Hpre2 in Hx. by rewrite deepcopy_fresh in Hx. }
  assert (Hcallsok : ∀ c g,
    (c, g) ∈ imap (λ i d, (scan_call Config_n_cores env i d,
                           start_of_step m xyzs_list i))
                  (take (length dists) dists) →
    calc_molecule c ≠ mol ∧ heap st !! calc_molecule c = None).
  { intros c g Hin. apply list_elem_of_lookup in Hin as [i Hi].
    rewrite list_lookup_imap in Hi.
    destruct (take (length dists) dists !! i) as [d|]; [|done].
    simpl in Hi. simplify_eq. cbn [calc_molecule scan_call env_mol_with_const env env_of].
    pose proof (deepcopy_fresh mol st) as Hf. split; [by apply Hfresh_ne | done]. }
  unfold out. rewrite Hrun.
  destruct (find_1dpes_maximum_energy_xyzs dists xyzs_list energy_list)
    as [peak|e]; cbn [fst snd heap calls].
  - assert (Hkeep : ∀ l x, heap st !! l = Some x →
      alter (set_xyzs (mjoin peak)) (deepcopy mol st2).1
            (heap (deepcopy mol st2).2) !! l = Some x).
    { intros l x Hl. rewrite lookup_alter_ne; [by apply Hpre3|].
      intros <-. congruence. }
    split_and!.
    + by apply Hkeep.
    + done.
    + eexists. split; [exact Hcalls | exact Hcallsok].
    + intros ts Hts. destruct (mjoin peak) as [geometry|] eqn:Hpeak; [|done].
      simplify_eq. cbn [ts_molecule]. split_and!; [by apply Hfresh_ne | done |].
      exists geometry. rewrite lookup_alter_eq, lookup_insert_eq.
      by rewrite (lookup_total_correct _ _ _ Hm2).
  - split_and!.
    + by apply Hpre3.
    + done.
    + eexists. split; [exact Hcalls | exact Hcallsok].
    + intros ts Hts. discriminate.
Qed.
End ScanClaims.


Lemma scan_preserves_caller_molecule_witness :
  let out := get_ts_guess_1dpes_scan unit 1 h2_bond_distance
               (h2_relax (λ _, false)) 1%positive (0, 1) 5 "h2" tt XTB []
               (3 # 2)%Q None h2_store in
  heap out.2 !! 1%positive = Some h2 ∧
  (∀ l x, heap h2_store !! l = Some x → heap out.2 !! l = Some x) ∧
  (∃ new_calls, calls out.2 = calls h2_store ++ new_calls ∧
     ∀ c g, (c, g) ∈ new_calls →
       calc_molecule c ≠ 1%positive ∧ heap h2_store !! calc_molecule c = None) ∧
  (∀ ts, out.1 = Ok (Some ts) →
     ts_molecule ts ≠ 1%positive ∧ heap h2_store !! ts_molecule ts = None ∧
     ∃ geometry,
       heap out.2 !! ts_molecule ts = Some (set_xyzs (Some geometry) h2)).
Proof.
  apply (scan_preserves_caller_molecule unit 1 h2_bond_distance
           (h2_relax (λ _, false)) 1%positive (0, 1) 5 "h2" tt XTB []
           (3 # 2)%Q None h2_store h2).
  reflexivity.
Defined.

(** The same scan returns a TS guess at the third point, on a new object. *)
Example h2_scan_result :
  (get_ts_guess_1dpes_scan unit 1 h2_bond_distance (h2_relax (λ _, false))
     1%positive (0, 1) 5 "h2" tt XTB [] (3 # 2)%Q None h2_store).1
  = Ok (Some {| ts_name := "h2"; ts_reaction_class := tt;
                ts_molecule := 3%positive; ts_active_bonds := [(0, 1)] |}).
Proof. by vm_compute. Qed.

(** * Core stripping *)

Lemma covers_all_true core n :
  covers_all core n = true ↔ ∀ i, i < n → i ∈ core.
Proof.
  unfold covers_all. rewrite forallb_forall. split.
  - intros H i Hi. specialize (H i). rewrite bool_decide_eq_true in H.
    apply H, list_elem_of_In, elem_of_seq. lia.
  - intros H i Hi%list_elem_of_In%elem_of_seq. apply bool_decide_eq_true, H. lia.
Qed.

(** C7: with no core given, or a core that covers every atom, stripping
    returns the structure it was given, marked as not a fragment, with the
    bond rearrangement it was given; when the structure was not a fragment
    the result is the very same structure. *)
Theorem strip_core_noop (m : Molecule) (core_atoms : option (gset nat))
    (br : BondRearrangement) :
  core_atoms = None ∨
    (∃ core, core_atoms = Some core ∧ ∀ i, i < n_atoms m → i ∈ core) →
  ∃ m', strip_core m core_atoms br = Ok (m', br) ∧
        is_fragment m' = false ∧ m' = mark_fragment false m ∧
        (is_fragment m = false → m' = m).
Proof.
  intros Hnoop. exists (mark_fragment false m).
  assert (strip_core m core_atoms br = Ok (mark_fragment false m, br)) as ->.
  { destruct Hnoop as [-> | (core & -> & Hall)]; [done|].
    unfold strip_core. by rewrite (proj2 (covers_all_true core (n_atoms m)) Hall). }
  split_and!; [done..|]. destruct m; simpl. by intros ->.
Qed.

Lemma strip_core_noop_witness :
  ∃ m', strip_core fixture_reactant (Some (list_to_set (seq 0 32)))
          fixture_rearrangement = Ok (m', fixture_rearrangement) ∧
        is_fragment m' = false ∧ m' = mark_fragment false fixture_reactant ∧
        (is_fragment fixture_reactant = false → m' = fixture_reactant).
Proof.
  apply (strip_core_noop fixture_reactant (Some (list_to_set (seq 0 32)))
           fixture_rearrangement).
  right. exists (list_to_set (seq 0 32)). split; [reflexivity|].
  intros i Hi. apply elem_of_list_to_set, elem_of_seq.
  change (n_atoms fixture_reactant) with 32 in Hi. lia.
Defined.

(** * Core-atom selection *)

Lemma bfs_visited g depth frontier visited :
  visited ⊆ bfs g depth frontier visited.
Proof.
  revert frontier visited. induction depth as [|d IH]; intros f v; [done|].
  simpl. etrans; [|apply IH]. apply union_subseteq_l.
Qed.

Lemma bfs_depth_S g depth frontier visited :
  bfs g depth frontier visited ⊆ bfs g (S depth) frontier visited.
Proof.
  revert frontier visited. induction depth as [|d IH]; intros f v.
  - simpl. apply union_subseteq_l.
  - change (bfs g (S d) f v) with
      (bfs g d (set_bind (neighbours g) f ∖ v)
             (v ∪ set_bind (neighbours g) f ∖ v)).
    change (bfs g (S (S d)) f v) with
      (bfs g (S d) (set_bind (neighbours g) f ∖ v)
             (v ∪ set_bind (neighbours g) f ∖ v)).
    apply IH.
Qed.

Lemma bfs_depth_mono g d1 d2 frontier visited :
  d1 ≤ d2 → bfs g d1 frontier visited ⊆ bfs g d2 frontier visited.
Proof.
  induction 1 as [|d2 _ IH]; [done|]. etrans; [apply IH | apply bfs_depth_S].
Qed.

Lemma bfs_union_mono g d1 d2 (acts : list nat) :
  d1 ≤ d2 → ⋃ (bfs_from g d1 <$> acts) ⊆ ⋃ (bfs_from g d2 <$> acts).
Proof.
  intros Hd. induction acts as [|a acts IH]; [done|]. simpl.
  apply union_mono; [by apply bfs_depth_mono | done].
Qed.

Lemma bfs_union_depth_0 g (acts : list nat) :
  ⋃ (bfs_from g 0 <$> acts) = list_to_set acts.
Proof.
  induction acts as [|a acts IH]; [done|].
  change (⋃ (bfs_from g 0 <$> a :: acts))
    with ({[a]} ∪ ⋃ (bfs_from g 0 <$> acts) : gset nat).
  by rewrite IH.
Qed.

Lemma bfs_union_active g depth (acts : list nat) a :
  a ∈ acts → a ∈ ⋃ (bfs_from g depth <$> acts).
Proof.
  induction 1 as [a acts | a b acts _ IH]; simpl; apply elem_of_union.
  - left. apply (bfs_visited g depth {[a]} {[a]}). by apply elem_of_singleton.
  - by right.
Qed.

Lemma pi_close_step_extends s p : s ⊆ pi_close_step s p.
Proof.
  unfold pi_close_step.
  repeat (case_match; [apply union_subseteq_l|]). done.
Qed.

Lemma pi_close_step_mono s s' p :
  s ⊆ s' → pi_close_step s p ⊆ pi_close_step s' p.
Proof.
  intros Hs. unfold pi_close_step.
  repeat match goal with
  | |- context [bool_decide ?P] => destruct (bool_decide_reflect P)
  end; cbn [andb negb];
    intros x; rewrite ?elem_of_union, ?elem_of_singleton;
    pose proof (Hs x); pose proof (Hs p.1); pose proof (Hs p.2);
    intuition (subst; auto).
Qed.

Lemma pi_close_extends s (pi : list bond) : s ⊆ foldl pi_close_step s pi.
Proof.
  revert s. induction pi as [|p pi IH]; intros s; [done|]. simpl.
  etrans; [apply (pi_close_step_extends s p) | apply IH].
Qed.

Lemma pi_close_mono s s' (pi : list bond) :
  s ⊆ s' → foldl pi_close_step s pi ⊆ foldl pi_close_step s' pi.
Proof.
  revert s s'. induction pi as [|p pi IH]; intros s s' Hs; [done|]. simpl.
  by apply IH, pi_close_step_mono.
Qed.

(** On the reactant of the test with no active atoms set, no core. *)
Example get_core_atoms_unset :
  get_core_atoms
    {| name := "reactant"; xyzs := xyzs fixture_reactant;
       graph := fixture_graph; pi_bonds := None; active_atoms := None;
       is_fragment := false; charge := (-1)%Z; mult := 1%Z |} 3 = None.
Proof. reflexivity. Qed.

(** C6: for a non-empty list of active atoms, a deeper traversal selects a
    superset of what a shallower one selects, and at depth 0 the traversal
    yields exactly the active atoms, to which the pi-bond pass is then
    applied. *)
Theorem select_core_monotone (g : list bond) (acts : list nat)
    (pi : option (list bond)) (d1 d2 : nat) :
  acts ≠ [] → d1 < d2 →
  ∃ c1 c2,
    select_core g (Some acts) pi d1 = Some c1 ∧
    select_core g (Some acts) pi d2 = Some c2 ∧ c1 ⊆ c2 ∧
    ⋃ (bfs_from g 0 <$> acts) = list_to_set acts ∧
    select_core g (Some acts) pi 0
      = Some (foldl pi_close_step (list_to_set acts) (default [] pi)) ∧
    select_core g (Some acts) None 0 = Some (list_to_set acts).
Proof.
  intros Hne Hd. destruct acts as [|a acts]; [done|].
  do 2 eexists. split_and!; [done | done | | | |].
  - apply pi_close_mono, bfs_union_mono. lia.
  - apply bfs_union_depth_0.
  - unfold select_core. by rewrite bfs_union_depth_0.
  - unfold select_core. by rewrite bfs_union_depth_0.
Qed.

Lemma select_core_monotone_witness :
  ∃ c1 c2,
    select_core fixture_graph (Some [0; 1; 30]) (Some [(2, 3)]) 2 = Some c1 ∧
    select_core fixture_graph (Some [0; 1; 30]) (Some [(2, 3)]) 3 = Some c2 ∧
    c1 ⊆ c2 ∧
    ⋃ (bfs_from fixture_graph 0 <$> [0; 1; 30]) = list_to_set [0; 1; 30] ∧
    select_core fixture_graph (Some [0; 1; 30]) (Some [(2, 3)]) 0
      = Some (foldl pi_close_step (list_to_set [0; 1; 30])
                (default [] (Some [(2, 3)]))) ∧
    select_core fixture_graph (Some [0; 1; 30]) None 0
      = Some (list_to_set [0; 1; 30]).
Proof.
  apply (select_core_monotone fixture_graph [0; 1; 30] (Some [(2, 3)]) 2 3);
    [discriminate | lia].
Defined.

(** C8: core-atom selection returns [None] exactly when no active atom is
    defined (the list is unset or empty), whatever the graph, the pi bonds
    and the depth; a set it returns contains the active atoms, so it is never
    the empty set. *)
Theorem select_core_absent_iff_no_active (g : list bond)
    (active : option (list nat)) (pi : option (list bond)) (depth : nat) :
  (select_core g active pi depth = None ↔ active = None ∨ active = Some []) ∧
  (∀ core, select_core g active pi depth = Some core →
     core ≠ ∅ ∧ ∀ acts a, active = Some acts → a ∈ acts → a ∈ core) ∧
  (∀ m, active_atoms m = None ∨ active_atoms m = Some [] →
        get_core_atoms m depth = None).
Proof.
  split_and!.
  - destruct active as [[|a acts]|]; simpl; split; try done; auto.
    intros [?|?]; done.
  - intros core Hsel. destruct active as [[|a acts]|]; simpl in Hsel; try done.
    assert (Hin : ∀ x, x ∈ a :: acts → x ∈ core).
    { intros x Hx. simplify_eq.
      apply (pi_close_extends _ (default [] pi)).
      by apply (bfs_union_active g depth (a :: acts)). }
    split.
    + intros ->. apply (not_elem_of_empty (C:=gset nat) a), Hin. by left.
    + intros acts' x [= <-]. apply Hin.
  - intros m Hm. unfold get_core_atoms. by destruct Hm as [-> | ->].
Qed.

(** * Further properties of the peak finder and of the scan *)

Lemma peak_step_outcome {X} (xyzs_list : list X) (energy_list : list energy)
    (st st' : energy * option X) (i : nat) :
  peak_step xyzs_list energy_list st i = Ok st' →
  st' = st ∨
  ∃ x, st'.2 = Some x ∧ xyzs_list !! i = Some x ∧
    ∃ a e c, energy_list !! (i - 1) = Some (Some a) ∧
             energy_list !! i = Some (Some e) ∧
             energy_list !! (i + 1) = Some (Some c) ∧ (a < e)%Q ∧ (c < e)%Q.
Proof.
  unfold peak_step, py_index, py_gt, py_lt. intros Hstep.
  destruct (energy_list !! i) as [[e|]|] eqn:Hi; simpl in Hstep;
    [|by destruct st.1|done].
  destruct st.1 as [p|]; simpl in Hstep; [|done].
  destruct (Qlt_bool p e); [|left; congruence].
  destruct (energy_list !! (i - 1)) as [[a|]|] eqn:Ha; simpl in Hstep; [|done..].
  destruct (Qlt_bool a e) eqn:Hae; [|left; congruence].
  destruct (energy_list !! (i + 1)) as [[c|]|] eqn:Hc; simpl in Hstep; [|done..].
  destruct (Qlt_bool c e) eqn:Hce; [|left; congruence].
  destruct (xyzs_list !! i) as [x|] eqn:Hx; simpl in Hstep; [|done].
  Qlt_bool_order. right. exists x. simplify_eq. split_and!; [done..|].
  by exists a, e, c.
Qed.

Lemma peak_loop_outcome {X} (xyzs_list : list X) (energy_list : list energy)
    (n : nat) (st st' : energy * option X) :
  rfold (peak_step xyzs_list energy_list) st (seq 1 n) = Ok st' →
  st'.2 = st.2 ∨
  ∃ i x, st'.2 = Some x ∧
         interior_peak_at (n + 2) xyzs_list energy_list i x.
Proof.
  revert st'. induction n as [|n IH]; intros st' Hrun.
  - left. simpl in Hrun. congruence.
  - rewrite seq_S, rfold_app in Hrun.
    destruct (rfold _ st (seq 1 n)) as [st1|e] eqn:Hpre; [|done].
    cbn [rbind rfold] in Hrun.
    destruct (peak_step xyzs_list energy_list st1 (1 + n)) as [st2|e] eqn:Hstep;
      [|done]. cbn [rbind] in Hrun. simplify_eq.
    apply peak_step_outcome in Hstep as [-> | (x & Hx & Hxl & Hpeak)].
    + destruct (IH st1 eq_refl) as [? | (i & x & ? & (? & ? & ? & ?))];
        [by left|]. right. exists i, x. split; [done|].
      split_and!; [done | lia | done | done].
    + right. exists (1 + n), x. split; [done|].
      split_and!; [lia | lia | done | done].
Qed.

(** Whatever the lengths of the three lists and whichever energies are
    absent, a geometry that the peak finder returns is the one collected at
    an interior step whose energy is present and strictly above the present
    energies of both neighbours: never the first or the last point. *)
Theorem find_peak_result_is_interior {D X} (dists : list D)
    (xyzs_list : list X) (energy_list : list energy) (x : X) :
  find_1dpes_maximum_energy_xyzs dists xyzs_list energy_list = Ok (Some x) →
  ∃ i, interior_peak_at (length dists) xyzs_list energy_list i x.
Proof.
  unfold find_1dpes_maximum_energy_xyzs. intros Hrun.
  destruct (_ || _); [done|].
  destruct (py_min energy_list) as [m|]; [|done]. simpl in Hrun.
  destruct (rfold _ _ _) as [st|] eqn:Hloop; [|done]. simpl in Hrun.
  destruct (plot_curve energy_list m); [|done]. simpl in Hrun.
  apply peak_loop_outcome in Hloop as [Hst | (i & x' & Hst & Hpeak)];
    simpl in Hst; [congruence|].
  assert (x' = x) as -> by congruence. exists i.
  destruct Hpeak as (? & ? & ? & ?). split_and!; [done | lia | done | done].
Qed.

Lemma find_peak_result_is_interior_witness :
  ∃ i, interior_peak_at (length [1; 2; 3; 4; 5]%Q)
         ["a"; "b"; "c"; "d"; "e"]
         [Some 1; Some 3; Some 2; Some (7 # 2); Some 1]%Q i "d".
Proof.
  apply (find_peak_result_is_interior [1; 2; 3; 4; 5]%Q
           ["a"; "b"; "c"; "d"; "e"]
           [Some 1; Some 3; Some 2; Some (7 # 2); Some 1]%Q "d").
  reflexivity.
Defined.

Lemma scan_call_name_inj Config_n_cores env i j d d' :
  calc_name (scan_call Config_n_cores env i d)
    = calc_name (scan_call Config_n_cores env j d') → i = j.
Proof.
  cbn [calc_name scan_call]. intros Heq.
  by apply String.app_inj, String.app_inj, pretty_nat_inj in Heq.
Qed.

Section ScanProperties.
Variable ReactionClass : Type.
Variable Config_n_cores : nat.
Variable calc_bond_distance : Molecule → bond → Q.
Variable run_calculation : CalcArgs → Molecule → pyxyzs * energy.

Local Abbreviation scan :=
  (get_ts_guess_1dpes_scan ReactionClass Config_n_cores calc_bond_distance
     run_calculation).

(** When the distances cannot be generated the call raises before any
    relaxation is run. *)
Lemma scan_unfold_raise mol active_bond n_steps name reaction_class method
    keywords delta_dist others st m e :
  heap st !! mol = Some m →
  linspace (calc_bond_distance m active_bond)
           (fl_add (calc_bond_distance m active_bond) delta_dist) n_steps = Raise e →
  scan mol active_bond n_steps name reaction_class method keywords
       delta_dist others st = (Raise e, (deepcopy mol st).2).
Proof.
  intros Hm Hlin. unfold get_ts_guess_1dpes_scan.
  change (deepcopy mol st) with ((deepcopy mol st).1, (deepcopy mol st).2).
  cbv beta iota.
  rewrite (lookup_total_correct _ _ _ (deepcopy_frame mol st _ _ Hm)).
  by rewrite Hlin.
Qed.

(** A scan of fewer than three steps has no interior point: whatever the
    relaxations return, the call yields no TS guess (it returns [None] or
    raises). *)
Theorem scan_needs_three_steps (mol : loc) (active_bond : bond)
    (n_steps : Z) (name : string) (reaction_class : ReactionClass)
    (method : ElectronicStructureMethod) (keywords : list string)
    (delta_dist : Q) (others : option (list bond)) (st : pystate)
    (m : Molecule) :
  heap st !! mol = Some m → (n_steps ≤ 2)%Z →
  (scan mol active_bond n_steps name reaction_class method keywords
        delta_dist others st).1 = Ok None ∨
  ∃ e, (scan mol active_bond n_steps name reaction_class method keywords
             delta_dist others st).1 = Raise e.
Proof.
  intros Hm Hn.
  destruct (linspace (calc_bond_distance m active_bond)
              (fl_add (calc_bond_distance m active_bond) delta_dist) n_steps)
    as [dists|e] eqn:Hlin.
  2: { right. exists e. by erewrite scan_unfold_raise. }
  destruct (scan_unfold ReactionClass Config_n_cores calc_bond_distance
              run_calculation mol active_bond n_steps name reaction_class
              method keywords delta_dist others st m dists Hm Hlin)
    as (st2 & xyzs_list & energy_list & _ & _ & _ & ->).
  destruct (find_1dpes_maximum_energy_xyzs dists xyzs_list energy_list)
    as [[x|]|e] eqn:Hfind; cbn [fst mjoin]; [|by left|right; by exists e].
  apply find_peak_result_is_interior in Hfind as (i & ? & ? & _).
  apply linspace_length in Hlin. lia.
Qed.

(** A TS guess that the call returns carries the name and the reaction class
    it was given and the scanned bond first among its active bonds; its
    molecule is the input molecule with the geometry that the relaxation of
    an interior step returned, a step whose energy is present and strictly
    above the energies of the steps before and after it. *)
Theorem scan_guess_is_interior_step (mol : loc) (active_bond : bond)
    (n_steps : Z) (name : string) (reaction_class : ReactionClass)
    (method : ElectronicStructureMethod) (keywords : list string)
    (delta_dist : Q) (others : option (list bond)) (st st' : pystate)
    (m : Molecule) (ts : TSguess ReactionClass) :
  heap st !! mol = Some m →
  scan mol active_bond n_steps name reaction_class method keywords
       delta_dist others st = (Ok (Some ts), st') →
  ts_name ts = name ∧ ts_reaction_class ts = reaction_class ∧
  ts_active_bonds ts = active_bond :: default [] others ∧
  ∃ i geometry a e c,
    1 ≤ i ∧ (Z.of_nat i + 1 < n_steps)%Z ∧
    heap st' !! ts_molecule ts = Some (set_xyzs (Some geometry) m) ∧
    (∃ cg, calls st' !! (length (calls st) + i) = Some cg ∧
           run_calculation cg.1 cg.2 = (Some geometry, Some e)) ∧
    (∃ cg, calls st' !! (length (calls st) + (i - 1)) = Some cg ∧
           (run_calculation cg.1 cg.2).2 = Some a) ∧
    (∃ cg, calls st' !! (length (calls st) + (i + 1)) = Some cg ∧
           (run_calculation cg.1 cg.2).2 = Some c) ∧
    (a < e)%Q ∧ (c < e)%Q.
Proof.
  intros Hm Hrun.
  destruct (linspace (calc_bond_distance m active_bond)
              (fl_add (calc_bond_distance m active_bond) delta_dist) n_steps)
    as [dists|e] eqn:Hlin.
  2: { by erewrite scan_unfold_raise in Hrun. }
  destruct (scan_unfold ReactionClass Config_n_cores calc_bond_distance
              run_calculation mol active_bond n_steps name reaction_class
              method keywords delta_dist others st m dists Hm Hlin)
    as (st2 & xyzs_list & energy_list & _ & Hinv & Hm2 & Heq).
  rewrite Heq in Hrun. clear Heq.
  destruct Hinv as [Hxl Hel _ _ Hcalls Hres]. simpl in *.
  rewrite take_ge in Hcalls by lia.
  destruct (find_1dpes_maximum_energy_xyzs dists xyzs_list energy_list)
    as [[[geometry|]|]|] eqn:Hfind; cbn [mjoin] in Hrun; [|done..].
  injection Hrun as <- <-. cbn [ts_name ts_reaction_class ts_active_bonds
                                ts_molecule heap calls].
  split_and!; [done | done | by destruct others |].
  apply find_peak_result_is_interior in Hfind
    as (i & Hi & Hlt & Hx & a & e & c & Ha & He & Hc & Hae & Hce).
  pose proof (linspace_length _ _ _ _ Hlin) as Hlen.
  assert (Hcall : ∀ j, j < length dists →
    ∃ cg, calls st2 !! (length (calls st) + j) = Some cg ∧
          xyzs_list !! j = Some (run_calculation cg.1 cg.2).1 ∧
          energy_list !! j = Some (run_calculation cg.1 cg.2).2).
  { intros j Hj. destruct (lookup_lt_is_Some_2 dists j Hj) as [d Hd].
    exists (scan_call Config_n_cores
              (env_of mol active_bond name method keywords st) j d,
            start_of_step m xyzs_list j).
    rewrite Hcalls, lookup_app_r by (simpl; lia).
    replace (length (calls st) + j - length (calls st)) with j by lia.
    rewrite list_lookup_imap, Hd. split; [done|]. by apply Hres. }
  exists i, geometry, a, e, c.
  destruct (Hcall i) as (cg & Hcg & Hcx & Hce'); [lia|].
  destruct (Hcall (i - 1)) as (cgp & Hcgp & _ & Hcep); [lia|].
  destruct (Hcall (i + 1)) as (cgn & Hcgn & _ & Hcen); [lia|].
  split_and!; [done | lia | | | | | done | done].
  - rewrite lookup_alter_eq, lookup_insert_eq.
    by rewrite (lookup_total_correct _ _ _ Hm2).
  - exists cg. split; [done|]. rewrite (surjective_pairing (run_calculation _ _)).
    f_equal; congruence.
  - exists cgp. split; [done|]. congruence.
  - exists cgn. split; [done|]. congruence.
Qed.

(** The calculations that one call runs are logged after those already in the
    log, and no two of them share a name. *)
Theorem scan_calculation_names_distinct (mol : loc) (active_bond : bond)
    (n_steps : Z) (name : string) (reaction_class : ReactionClass)
    (method : ElectronicStructureMethod) (keywords : list string)
    (delta_dist : Q) (others : option (list bond)) (st : pystate)
    (m : Molecule) :
  heap st !! mol = Some m →
  ∃ new_calls,
    calls (scan mol active_bond n_steps name reaction_class method keywords
                delta_dist others st).2 = calls st ++ new_calls ∧
    length new_calls = Z.to_nat n_steps ∧
    NoDup (map (λ cg, calc_name cg.1) new_calls).
Proof.
  intros Hm.
  destruct (linspace (calc_bond_distance m active_bond)
              (fl_add (calc_bond_distance m active_bond) delta_dist) n_steps)
    as [dists|e] eqn:Hlin.
  2: { erewrite scan_unfold_raise by done. exists []. cbn [snd].
       rewrite deepcopy_calls, app_nil_r. split_and!; [done | | constructor].
       unfold linspace in Hlin. destruct (n_steps <? 0)%Z eqn:Hneg; [|done].
       apply Z.ltb_lt in Hneg. simpl. lia. }
  destruct (scan_unfold ReactionClass Config_n_cores calc_bond_distance
              run_calculation mol active_bond n_steps name reaction_class
              method keywords delta_dist others st m dists Hm Hlin)
    as (st2 & xyzs_list & energy_list & _ & Hinv & _ & ->).
  destruct Hinv as [_ _ _ _ Hcalls _]. simpl in Hcalls.
  rewrite take_ge in Hcalls by lia.
  eexists. split_and!.
  - destruct (find_1dpes_maximum_energy_xyzs dists xyzs_list energy_list);
      cbn [snd calls]; exact Hcalls.
  - rewrite length_imap. by apply linspace_length in Hlin.
  - apply NoDup_alt. intros i j nm Hi Hj.
    change (map ?f ?l) with (f <$> l) in Hi, Hj.
    rewrite list_lookup_fmap, list_lookup_imap in Hi, Hj.
    destruct (dists !! i) as [d|]; [|done].
    destruct (dists !! j) as [d'|]; [|done].
    simpl in Hi, Hj.
    apply (scan_call_name_inj Config_n_cores
             (env_of mol active_bond name method keywords st) i j d d').
    cbn [calc_name scan_call env_name env_of]. congruence.
Qed.
End ScanProperties.

Lemma scan_needs_three_steps_witness :
  (get_ts_guess_1dpes_scan unit 1 h2_bond_distance (h2_relax (λ _, false))
     1%positive (0, 1) 2 "h2" tt XTB [] (3 # 2)%Q None h2_store).1 = Ok None ∨
  ∃ e, (get_ts_guess_1dpes_scan unit 1 h2_bond_distance (h2_relax (λ _, false))
          1%positive (0, 1) 2 "h2" tt XTB [] (3 # 2)%Q None h2_store).1
       = Raise e.
Proof.
  apply (scan_needs_three_steps unit 1 h2_bond_distance (h2_relax (λ _, false))
           1%positive (0, 1) 2 "h2" tt XTB [] (3 # 2)%Q None h2_store h2);
    [reflexivity | lia].
Defined.

Lemma scan_guess_is_interior_step_witness :
  let run := h2_relax (λ _, false) in
  let out := get_ts_guess_1dpes_scan unit 1 h2_bond_distance run 1%positive
               (0, 1) 5 "h2" tt XTB [] (3 # 2)%Q None h2_store in
  let ts := {| ts_name := "h2"; ts_reaction_class := tt;
               ts_molecule := 3%positive; ts_active_bonds := [(0, 1)] |} in
  ts_name ts = "h2" ∧ ts_reaction_class ts = tt ∧
  ts_active_bonds ts = (0, 1) :: default [] None ∧
  ∃ i geometry a e c,
    1 ≤ i ∧ (Z.of_nat i + 1 < 5)%Z ∧
    heap out.2 !! ts_molecule ts = Some (set_xyzs (Some geometry) h2) ∧
    (∃ cg, calls out.2 !! (length (calls h2_store) + i) = Some cg ∧
           run cg.1 cg.2 = (Some geometry, Some e)) ∧
    (∃ cg, calls out.2 !! (length (calls h2_store) + (i - 1)) = Some cg ∧
           (run cg.1 cg.2).2 = Some a) ∧
    (∃ cg, calls out.2 !! (length (calls h2_store) + (i + 1)) = Some cg ∧
           (run cg.1 cg.2).2 = Some c) ∧
    (a < e)%Q ∧ (c < e)%Q.
Proof.
  intros run out ts.
  apply (scan_guess_is_interior_step unit 1 h2_bond_distance run 1%positive
           (0, 1) 5 "h2" tt XTB [] (3 # 2)%Q None h2_store out.2 h2 ts).
  - reflexivity.
  - vm_compute. reflexivity.
Defined.

Lemma scan_calculation_names_distinct_witness :
  ∃ new_calls,
    calls (get_ts_guess_1dpes_scan unit 1 h2_bond_distance
             (h2_relax (λ _, false)) 1%positive (0, 1) 5 "h2" tt XTB []
             (3 # 2)%Q None h2_store).2 = calls h2_store ++ new_calls ∧
    length new_calls = Z.to_nat 5 ∧
    NoDup (map (λ cg, calc_name cg.1) new_calls).
Proof.
  apply (scan_calculation_names_distinct unit 1 h2_bond_distance
           (h2_relax (λ _, false)) 1%positive (0, 1) 5 "h2" tt XTB []
           (3 # 2)%Q None h2_store h2).
  reflexivity.
Defined.

(** * The ORCA wrapper *)

(** [sub in s] holds exactly when [s] is [sub] with something before and
    after it. *)
Lemma py_startswith_spec pre s :
  OrcaWrapper.py_startswith pre s = true ↔ ∃ post, s = pre +:+ post.
Proof.
  revert s. induction pre as [|a pre IH]; intros s; simpl.
  - split; [by exists s | done].
  - destruct s as [|b s]; [split; [done | by intros [? ?]]|].
    case_decide as Hab.
    + subst b. rewrite IH. split; intros [post Hp]; exists post.
      * by rewrite Hp.
      * by injection Hp.
    + split; [done | intros [post Hp]; by injection Hp].
Qed.

Lemma py_in_spec sub s :
  OrcaWrapper.py_in sub s = true ↔ ∃ pre post, s = pre +:+ sub +:+ post.
Proof.
  induction s as [|c s IH]; simpl.
  - destruct (OrcaWrapper.py_startswith sub "") eqn:Hst.
    + apply py_startswith_spec in Hst as [post Hp].
      split; [by exists "", post | done].
    + split; [done|]. intros (pre & post & Heq).
      destruct pre; [|done]. simpl in Heq.
      assert (OrcaWrapper.py_startswith sub "" = true)
        by (apply py_startswith_spec; by exists post). congruence.
  - destruct (OrcaWrapper.py_startswith sub (String c s)) eqn:Hst.
    + apply py_startswith_spec in Hst as [post Hp].
      split; [by exists "", post | done].
    + rewrite IH. split.
      * intros (pre & post & ->). by exists (String c pre), post.
      * intros ([|c' pre] & post & Heq); simpl in Heq.
        -- assert (OrcaWrapper.py_startswith sub (String c s) = true)
             by (apply py_startswith_spec; by exists post). congruence.
        -- injection Heq as -> ->. by exists pre, post.
Qed.

Lemma terminated_from_outcome (n : nat) (lines : list string) :
  n ≤ 31 →
  match OrcaWrapper.terminated_from n lines with
  | Some true => ∃ k line, n + k ≤ 31 ∧ lines !! k = Some line ∧ marked line
  | Some false =>
    32 ≤ n + length lines ∧
    ∀ k line, n + k ≤ 31 → lines !! k = Some line → ¬ marked line
  | None =>
    (n + length lines ≤ 31 ∨ lines = []) ∧
    ∀ line, line ∈ lines → ¬ marked line
  end.
Proof.
  revert n. induction lines as [|line rest IH]; intros n Hn;
    cbn [OrcaWrapper.terminated_from].
  - split; [by right | by intros ? ?%elem_of_nil].
  - destruct (existsb _ _) eqn:Hmark.
    { exists 0, line. split_and!; [lia | done | done]. }
    assert (¬ marked line) as Hno by (unfold marked; by rewrite Hmark).
    destruct (30 <? n) eqn:Hlate.
    + apply Nat.ltb_lt in Hlate. split; [simpl; lia|].
      intros k l Hk Hl. assert (k = 0) as -> by lia. by simplify_eq/=.
    + apply Nat.ltb_ge in Hlate. specialize (IH (S n) ltac:(lia)).
      destruct (OrcaWrapper.terminated_from (S n) rest) as [[|]|].
      * destruct IH as (k & l & ? & ? & ?). exists (S k), l.
        split_and!; [lia | done | done].
      * destruct IH as [? Hall]. split; [simpl; lia|].
        intros [|k] l Hk Hl; simplify_eq/=; [done|]. apply (Hall k); [lia|done].
      * destruct IH as [Hshort Hall]. split.
        -- left. destruct Hshort as [?| ->]; simpl; lia.
        -- intros l [->|?]%elem_of_cons; [done | by apply Hall].
Qed.

(** [calculation_terminated_normally] looks at the first 32 lines of the
    reversed output only: it returns [True] exactly when one of them carries
    a marker, [False] exactly when there are at least 32 lines and none of
    the first 32 carries one, and runs off the end, returning [None],
    exactly when there are at most 31 lines and none carries a marker. *)
Theorem calculation_terminated_normally_window (calc : OrcaWrapper.Calc) :
  let lines := OrcaWrapper.rev_output_file_lines calc in
  (OrcaWrapper.calculation_terminated_normally calc = Some true ↔
     ∃ k line, k ≤ 31 ∧ lines !! k = Some line ∧ marked line) ∧
  (OrcaWrapper.calculation_terminated_normally calc = Some false ↔
     32 ≤ length lines ∧
     ∀ k line, k ≤ 31 → lines !! k = Some line → ¬ marked line) ∧
  (OrcaWrapper.calculation_terminated_normally calc = None ↔
     length lines ≤ 31 ∧ ∀ line, line ∈ lines → ¬ marked line).
Proof.
  intros lines. unfold OrcaWrapper.calculation_terminated_normally.
  fold lines. pose proof (terminated_from_outcome 0 lines ltac:(lia)) as H.
  assert (Hexcl1 : (∃ k line, k ≤ 31 ∧ lines !! k = Some line ∧ marked line) →
                   ¬ (∀ k line, k ≤ 31 → lines !! k = Some line → ¬ marked line))
    by (intros (k & l & ? & ? & ?) Hall; by apply (Hall k l)).
  assert (Hexcl2 : (∃ k line, k ≤ 31 ∧ lines !! k = Some line ∧ marked line) →
                   ¬ (∀ line, line ∈ lines → ¬ marked line)).
  { intros (k & l & ? & Hl & ?) Hall. apply (Hall l); [|done].
    by eapply list_elem_of_lookup_2. }
  destruct (OrcaWrapper.terminated_from 0 lines) as [[|]|]; simpl in H.
  - split_and!; split; try done.
    + intros [_ Hall]. by destruct (Hexcl1 H).
    + intros [_ Hall]. by destruct (Hexcl2 H).
  - destruct H as [Hlen Hall]. split_and!; split; try done.
    + intros Htrue. by destruct (Hexcl1 Htrue).
    + intros [? _]. lia.
  - destruct H as [Hlen Hall]. split_and!; split; try done.
    + intros Htrue. by destruct (Hexcl2 Htrue).
    + intros [? _]. destruct Hlen as [?| Hnil]; [lia|].
      rewrite Hnil in *. simpl in *. lia.
    + intros _. split; [|done]. destruct Hlen as [?| ->]; simpl; lia.
Qed.

Section OrcaParsing.
Variable py_float : string → result Q.
Variable py_int : string → result Z.

Lemma get_energy_lines_first_match pre line post :
  (∀ l, l ∈ pre → OrcaWrapper.py_in "FINAL SINGLE POINT ENERGY" l = false) →
  OrcaWrapper.py_in "FINAL SINGLE POINT ENERGY" line = true →
  OrcaWrapper.get_energy_lines py_float (pre ++ line :: post) =
    (token <- py_index (OrcaWrapper.py_split line) 4 ;;
     e <- py_float token ;; Ok (Some e)).
Proof.
  intros Hpre Hline. induction pre as [|l pre IH]; simpl.
  - by rewrite Hline.
  - rewrite (Hpre l) by (by left). apply IH. intros; apply Hpre. by right.
Qed.

Lemma get_energy_lines_no_match lines :
  (∀ l, l ∈ lines → OrcaWrapper.py_in "FINAL SINGLE POINT ENERGY" l = false) →
  OrcaWrapper.get_energy_lines py_float lines = Ok None.
Proof.
  induction lines as [|l lines IH]; intros Hno; simpl; [done|].
  rewrite (Hno l) by (by left). apply IH. intros; apply Hno. by right.
Qed.

Lemma get_energy_lines_none lines :
  OrcaWrapper.get_energy_lines py_float lines = Ok None →
  ∀ l, l ∈ lines → OrcaWrapper.py_in "FINAL SINGLE POINT ENERGY" l = false.
Proof.
  induction lines as [|l' lines IH]; intros Hnone l Hl; [by inversion Hl|].
  simpl in Hnone.
  destruct (OrcaWrapper.py_in "FINAL SINGLE POINT ENERGY" l') eqn:Hin'.
  - unfold py_index in Hnone.
    destruct (OrcaWrapper.py_split l' !! 4) as [token|]; simpl in Hnone; [|done].
    by destruct (py_float token).
  - apply elem_of_cons in Hl as [->|Hl]; [done | by apply IH].
Qed.

(** [get_energy] is decided by the first line of the reversed output that
    contains FINAL SINGLE POINT ENERGY: its fifth field is read as a float,
    with IndexError when the line has fewer than five fields.  The result is
    [None] exactly when no line contains the marker. *)
Theorem get_energy_first_match (calc : OrcaWrapper.Calc) :
  let lines := OrcaWrapper.rev_output_file_lines calc in
  (OrcaWrapper.get_energy py_float calc = Ok None ↔
     ∀ l, l ∈ lines → OrcaWrapper.py_in "FINAL SINGLE POINT ENERGY" l = false) ∧
  (∀ pre line post, lines = pre ++ line :: post →
     (∀ l, l ∈ pre → OrcaWrapper.py_in "FINAL SINGLE POINT ENERGY" l = false) →
     OrcaWrapper.py_in "FINAL SINGLE POINT ENERGY" line = true →
     OrcaWrapper.get_energy py_float calc =
       match OrcaWrapper.py_split line !! 4 with
       | Some token => match py_float token with
                       | Ok e => Ok (Some e)
                       | Raise err => Raise err
                       end
       | None => Raise IndexError
       end).
Proof.
  intros lines. unfold OrcaWrapper.get_energy. fold lines. split.
  - split; [apply get_energy_lines_none | apply get_energy_lines_no_match].
  - intros pre line post -> Hpre Hline.
    rewrite get_energy_lines_first_match by done. unfold py_index.
    by destruct (OrcaWrapper.py_split line !! 4).
Qed.

Lemma nearly_converged_from_true block lines :
  OrcaWrapper.nearly_converged_from block lines = true →
  (block = true ∨
   ∃ i li, lines !! i = Some li ∧
     OrcaWrapper.py_in "The optimization has not yet converged" li = true ∧
     ∃ j lj, i ≤ j ∧ lines !! j = Some lj ∧ converged_row lj) ∧
  ∃ j lj, lines !! j = Some lj ∧ converged_row lj.
Proof.
  revert block. induction lines as [|line rest IH]; intros block; [done|].
  cbn [OrcaWrapper.nearly_converged_from].
  set (block1 := if block && _ then false else block).
  destruct (OrcaWrapper.py_in "The optimization has not yet converged" line)
    eqn:Hmark.
  - destruct (true && _ && _) eqn:Hrow.
    + intros _. apply andb_prop in Hrow as [Hlen Hlast]. simpl in Hlen.
      apply Nat.eqb_eq in Hlen. apply bool_decide_eq_true in Hlast.
      split; [|by exists 0, line]. right. exists 0, line.
      split_and!; [done | done |]. by exists 0, line.
    + intros Hrest. destruct (IH true Hrest) as [_ (j & lj & Hj & Hr)].
      split; [|by exists (S j), lj]. right. exists 0, line.
      split_and!; [done | done |]. exists (S j), lj. split_and!; [lia | done..].
  - destruct (block1 && _ && _) eqn:Hrow.
    + intros _. apply andb_prop in Hrow as [[Hb Hlen]%andb_prop Hlast].
      apply Nat.eqb_eq in Hlen. apply bool_decide_eq_true in Hlast.
      split; [|by exists 0, line]. left. unfold block1 in Hb.
      destruct block; [done|]. by simpl in Hb.
    + intros Hrest.
      destruct (IH block1 Hrest) as [Hsrc (j & lj & Hj & Hr)].
      split; [|by exists (S j), lj].
      destruct Hsrc as [Hb | (i & li & Hi & Hm & j' & lj' & ? & ? & ?)].
      * left. unfold block1 in Hb. destruct block; [done|]. by simpl in Hb.
      * right. exists (S i), li. split_and!; [done | done |].
        exists (S j'), lj'. split_and!; [lia | done..].
Qed.

(** [optimisation_nearly_converged] returns [True] only for an output in
    which, reading the reversed lines, a line that says the optimization has
    not yet converged comes no later than a line of five fields ending in
    YES. *)
Theorem optimisation_nearly_converged_needs_marker (calc : OrcaWrapper.Calc) :
  OrcaWrapper.optimisation_nearly_converged calc = true →
  ∃ i li j lj,
    i ≤ j ∧
    OrcaWrapper.rev_output_file_lines calc !! i = Some li ∧
    OrcaWrapper.py_in "The optimization has not yet converged" li = true ∧
    OrcaWrapper.rev_output_file_lines calc !! j = Some lj ∧
    converged_row lj.
Proof.
  intros Htrue. apply nearly_converged_from_true in Htrue as [[?|Hsrc] _]; [done|].
  destruct Hsrc as (i & li & ? & ? & j & lj & ? & ? & ?).
  by exists i, li, j, lj.
Qed.

Lemma rmap_length {A B} (f : A → result B) (l : list A) (ys : list B) :
  rmap f l = Ok ys → length ys = length l.
Proof.
  revert ys. induction l as [|x l IH]; intros ys; simpl; [by intros [= <-]|].
  destruct (f x); simpl; [|done]. destruct (rmap f l); simpl; [|done].
  intros [= <-]. simpl. by rewrite (IH _ eq_refl).
Qed.

Lemma rmap_lookup {A B} (f : A → result B) (l : list A) (ys : list B) k y :
  rmap f l = Ok ys → ys !! k = Some y → ∃ x, l !! k = Some x ∧ f x = Ok y.
Proof.
  revert ys k. induction l as [|x l IH]; intros ys k; simpl.
  - intros [= <-]. by rewrite lookup_nil.
  - destruct (f x) as [y0|] eqn:Hx; simpl; [|done].
    destruct (rmap f l) as [ys0|]; simpl; [|done]. intros [= <-].
    destruct k as [|k]; simpl; [intros [= <-]; by exists x|].
    by apply IH.
Qed.

Lemma rmap_raise {A B} (f : A → result B) (l : list A) x :
  x ∈ l → (∃ e, f x = Raise e) → ∃ e, rmap f l = Raise e.
Proof.
  intros Hin [e He]. induction Hin as [x l | x x' l _ IH]; simpl.
  - rewrite He. by exists e.
  - destruct (f x') ; simpl; [|by eexists]. destruct IH as [e' ->]; [done|].
    by exists e'.
Qed.

(** The state of the loop of [get_imag_freqs]: untouched as long as no
    header was met, a list of negative numbers afterwards. *)
Lemma imag_freqs_fold lines n (st r : option (list Q)) (l : list (nat * string)) :
  rfold (OrcaWrapper.imag_freqs_step py_float lines n) st l = Ok r →
  (r = st ∧
   ∀ il, il ∈ l → OrcaWrapper.py_in "VIBRATIONAL FREQUENCIES" il.2 = false) ∨
  (∃ fs il, r = Some fs ∧ il ∈ l ∧
     OrcaWrapper.py_in "VIBRATIONAL FREQUENCIES" il.2 = true ∧
     Forall (λ f, (f < 0)%Q) fs ∧ length fs ≤ 3 * n).
Proof.
  revert st. induction l as [|il l IH]; intros st; simpl.
  - intros [= <-]. left. split; [done|]. by intros ? ?%elem_of_nil.
  - unfold OrcaWrapper.imag_freqs_step at 1.
    destruct (OrcaWrapper.py_in "VIBRATIONAL FREQUENCIES" il.2) eqn:Hhdr.
    + destruct (rmap _ _) as [freqs|] eqn:Hfreqs; simpl; [|done].
      intros Hrest. apply IH in Hrest
        as [[-> _] | (fs & il' & -> & ? & ? & ? & ?)]; right.
      * eexists _, il. split_and!; [done | by left | done | |].
        -- apply Forall_forall. intros f Hf%list_elem_of_In%filter_In.
           destruct Hf as [_ Hf]. by apply Qlt_bool_true.
        -- etrans; [apply filter_length_le|].
           rewrite (rmap_length _ _ _ Hfreqs), length_take. lia.
      * exists fs, il'. split_and!; [done | by right | done..].
    + simpl. intros Hrest. apply IH in Hrest
        as [[-> Hno] | (fs & il' & -> & ? & ? & ? & ?)].
      * left. split; [done|]. intros il' [->|?]%elem_of_cons; [done | by apply Hno].
      * right. exists fs, il'. split_and!; [done | by right | done..].
Qed.

(** When [get_imag_freqs] returns, it returns [None] exactly when no line
    contains VIBRATIONAL FREQUENCIES; a list it returns holds negative
    numbers only, at most three per atom. *)
Theorem get_imag_freqs_negative (calc : OrcaWrapper.Calc)
    (r : option (list Q)) :
  OrcaWrapper.get_imag_freqs py_float calc = Ok r →
  (r = None ↔
     ∀ line, line ∈ OrcaWrapper.output_file_lines calc →
       OrcaWrapper.py_in "VIBRATIONAL FREQUENCIES" line = false) ∧
  (∀ fs, r = Some fs →
     Forall (λ f, (f < 0)%Q) fs ∧
     length fs ≤ 3 * OrcaWrapper.hessian_atoms calc).
Proof.
  unfold OrcaWrapper.get_imag_freqs. intros Hrun.
  set (lines := OrcaWrapper.output_file_lines calc) in *.
  assert (Hsnd : ∀ il, il ∈ zip (seq 0 (length lines)) lines → il.2 ∈ lines).
  { intros [i l] Hil. by apply elem_of_zip_r in Hil. }
  assert (Hzip : ∀ line, line ∈ lines →
            ∃ il, il ∈ zip (seq 0 (length lines)) lines ∧ il.2 = line).
  { intros line [i Hi]%list_elem_of_lookup. exists (i, line). split; [|done].
    apply list_elem_of_lookup. exists i. apply lookup_zip_with_Some.
    exists i, line. split_and!; [done | | done]. apply lookup_seq.
    split; [done|]. by apply lookup_lt_Some in Hi. }
  apply imag_freqs_fold in Hrun
    as [[-> Hno] | (fs & il & -> & Hil & Hhdr & Hneg & Hlen)].
  - split; [|done]. split; [|done]. intros _ line Hline.
    destruct (Hzip line Hline) as (il & Hil & <-). by apply Hno.
  - split.
    + split; [done|]. intros Hno. rewrite (Hno il.2) in Hhdr; [done|].
      by apply Hsnd.
    + by intros fs' [= <-].
Qed.

Lemma chunks_of_3_length {A} (l : list A) :
  length (OrcaWrapper.chunks_of_3 l) = (length l + 2) / 3.
Proof.
  unfold OrcaWrapper.chunks_of_3, OrcaWrapper.range_by_3.
  by rewrite !length_fmap, length_seq.
Qed.

Lemma chunks_of_3_lookup {A} (l : list A) i row :
  OrcaWrapper.chunks_of_3 l !! i = Some row →
  i < (length l + 2) / 3 ∧ row = take 3 (drop (3 * i) l).
Proof.
  unfold OrcaWrapper.chunks_of_3, OrcaWrapper.range_by_3.
  rewrite !list_lookup_fmap. intros Hrow.
  destruct (seq 0 ((length l + 2) / 3) !! i) as [k|] eqn:Hk; [|done].
  apply lookup_seq in Hk as [-> ?]. simpl in Hrow. by simplify_eq.
Qed.

(** A list that [get_normal_mode_displacements] returns has one entry per
    atom; every entry but the last holds three numbers, the last one holds
    one, two or three. *)
Theorem get_normal_mode_displacements_shape (calc : OrcaWrapper.Calc)
    (mode_number : Z) (rows : list (list Q)) :
  OrcaWrapper.get_normal_mode_displacements py_float py_int calc mode_number
    = Ok (Some rows) →
  length rows = OrcaWrapper.hessian_atoms calc ∧
  ∀ i row, rows !! i = Some row →
    1 ≤ length row ≤ 3 ∧ (i + 1 < length rows → length row = 3).
Proof.
  unfold OrcaWrapper.get_normal_mode_displacements.
  destruct (rfold _ _ _) as [st|]; simpl; [|done].
  destruct (length _ =? _) eqn:Hlen; simpl; [|done]. intros [= <-].
  apply Nat.eqb_eq in Hlen. split; [done|]. intros i row Hrow.
  rewrite chunks_of_3_length.
  apply chunks_of_3_lookup in Hrow as [Hi ->].
  rewrite length_take, length_drop.
  pose proof (Nat.div_mod_eq (length (OrcaWrapper.displacements st) + 2) 3).
  pose proof (Nat.mod_upper_bound
                (length (OrcaWrapper.displacements st) + 2) 3).
  lia.
Qed.

Lemma string_app_assoc (a b c : string) : (a +:+ b) +:+ c = a +:+ b +:+ c.
Proof.
  induction a as [|x a IH]; [done|].
  change (String x a +:+ b) with (String x (a +:+ b)).
  change (String x (a +:+ b) +:+ c) with (String x ((a +:+ b) +:+ c)).
  by rewrite IH.
Qed.

Lemma py_strip4_orca_out base :
  OrcaWrapper.py_strip4 (base +:+ "_orca.out") = base +:+ "_orca".
Proof.
  unfold OrcaWrapper.py_strip4. induction base as [|c base IH]; [done|].
  change (String c base +:+ "_orca.out") with (String c (base +:+ "_orca.out")).
  assert (4 ≤ String.length (base +:+ "_orca.out")) as Hlen.
  { clear IH. induction base as [|c' base IH]; [simpl; lia|].
    change (String c' base +:+ "_orca.out")
      with (String c' (base +:+ "_orca.out")). simpl. lia. }
  cbn [String.length].
  replace (S (String.length (base +:+ "_orca.out")) - 4)
    with (S (String.length (base +:+ "_orca.out") - 4)) by lia.
  cbn [String.substring]. by rewrite IH.
Qed.

Lemma get_final_xyzs_orca_out (fs : gmap string (list string))
    (calc : OrcaWrapper.Calc) (base : string) :
  OrcaWrapper.output_filename calc = Some (base +:+ "_orca.out") →
  OrcaWrapper.get_final_xyzs py_float fs calc =
    match fs !! (base +:+ "_orca.xyz") with
    | Some file => rmap (OrcaWrapper.xyz_line py_float) (drop 2 file)
    | None => Ok []
    end.
Proof.
  intros Hname. unfold OrcaWrapper.get_final_xyzs. rewrite Hname.
  assert (OrcaWrapper.truthy_str (Some (base +:+ "_orca.out")) = true) as ->
    by (by destruct base).
  cbn [default]. change (id ?x) with x. rewrite py_strip4_orca_out.
  rewrite string_app_assoc. by change ("_orca" +:+ ".xyz") with "_orca.xyz".
Qed.

(** With the output file named [base_orca.out], as [generate_input] names
    it, [get_final_xyzs] reads [base_orca.xyz]: a missing file gives the
    empty list; otherwise the first two lines are skipped and every other
    line gives one atom, so that the result has two entries fewer than the
    file has lines, and a line that does not split into four fields makes the
    call raise. *)
Theorem get_final_xyzs_reads_xyz_file (fs : gmap string (list string))
    (calc : OrcaWrapper.Calc) (base : string) :
  OrcaWrapper.output_filename calc = Some (base +:+ "_orca.out") →
  (fs !! (base +:+ "_orca.xyz") = None →
     OrcaWrapper.get_final_xyzs py_float fs calc = Ok []) ∧
  (∀ file, fs !! (base +:+ "_orca.xyz") = Some file →
     (∀ xyzs, OrcaWrapper.get_final_xyzs py_float fs calc = Ok xyzs →
        length xyzs = length file - 2 ∧
        ∀ k a, xyzs !! k = Some a →
          ∃ line, file !! (k + 2) = Some line ∧
                  OrcaWrapper.xyz_line py_float line = Ok a ∧
                  length (OrcaWrapper.py_split line) = 4) ∧
     (∀ k line, 2 ≤ k → file !! k = Some line →
        length (OrcaWrapper.py_split line) ≠ 4 →
        ∃ e, OrcaWrapper.get_final_xyzs py_float fs calc = Raise e)).
Proof.
  intros Hname. unfold OrcaWrapper.get_final_xyzs. rewrite Hname.
  assert (OrcaWrapper.truthy_str (Some (base +:+ "_orca.out")) = true) as ->
    by (by destruct base).
  cbn [default]. change (id ?x) with x. rewrite py_strip4_orca_out.
  rewrite string_app_assoc. change ("_orca" +:+ ".xyz") with "_orca.xyz".
  split; [by intros ->|]. intros file ->. split.
  - intros xyzs Hrun. split.
    + by rewrite (rmap_length _ _ _ Hrun), length_drop.
    + intros k a Ha.
      destruct (rmap_lookup _ _ _ _ _ Hrun Ha) as (line & Hline & Hparse).
      rewrite lookup_drop in Hline. exists line.
      replace (k + 2) with (2 + k) by lia. split_and!; [done | done |].
      unfold OrcaWrapper.xyz_line in Hparse.
      by destruct (OrcaWrapper.py_split line) as [|? [|? [|? [|? [|? ?]]]]].
  - intros k line Hk Hline Hlen. apply (rmap_raise _ _ line).
    + apply list_elem_of_lookup. exists (k - 2). rewrite lookup_drop.
      by replace (2 + (k - 2)) with k by lia.
    + exists ValueError. unfold OrcaWrapper.xyz_line.
      by destruct (OrcaWrapper.py_split line) as [|? [|? [|? [|? [|? ?]]]]].
Qed.

(** A header line of the Mulliken block resets the state of the loop. *)
Lemma charges_step_header st line :
  OrcaWrapper.py_in "MULLIKEN ATOMIC CHARGES" line = true →
  OrcaWrapper.charges_step py_float st line
    = OrcaWrapper.charges_step py_float (false, []) line.
Proof. intros Hhdr. unfold OrcaWrapper.charges_step. by rewrite Hhdr. Qed.

(** [get_atomic_charges] returns the charges of the last Mulliken block
    only: when the lines before a header are read without error, they do not
    contribute to the result. *)
Theorem get_atomic_charges_last_block
    (calc_before calc_from_header calc : OrcaWrapper.Calc)
    (pre post : list string) (header : string) (charges_before : list Q) :
  OrcaWrapper.output_file_lines calc_before = pre →
  OrcaWrapper.output_file_lines calc_from_header = header :: post →
  OrcaWrapper.output_file_lines calc = pre ++ header :: post →
  OrcaWrapper.py_in "MULLIKEN ATOMIC CHARGES" header = true →
  OrcaWrapper.get_atomic_charges py_float calc_before = Ok charges_before →
  OrcaWrapper.get_atomic_charges py_float calc
    = OrcaWrapper.get_atomic_charges py_float calc_from_header.
Proof.
  unfold OrcaWrapper.get_atomic_charges. intros -> -> -> Hhdr Hpre.
  rewrite rfold_app.
  destruct (rfold _ _ pre) as [st|]; simpl in *; [|done].
  by rewrite (charges_step_header st).
Qed.

(** Moving the accumulated gradients aside does not change what the loop of
    [get_gradients] adds to them. *)
Lemma gradients_fold_prefix lines b acc b' acc' acc0 :
  rfold (OrcaWrapper.gradients_step py_float) (b, acc) lines = Ok (b', acc') →
  rfold (OrcaWrapper.gradients_step py_float) (b, acc0 ++ acc) lines
    = Ok (b', acc0 ++ acc').
Proof.
  revert b acc. induction lines as [|line lines IH]; intros b acc; simpl.
  - by intros [= <- <-].
  - assert (Hstep : ∀ st,
      OrcaWrapper.gradients_step py_float (b, acc) line = Ok st →
      OrcaWrapper.gradients_step py_float (b, acc0 ++ acc) line
        = Ok (st.1, acc0 ++ st.2)).
    { intros st. unfold OrcaWrapper.gradients_step. cbn [fst snd].
      destruct (OrcaWrapper.py_in "CARTESIAN GRADIENT" line),
               (OrcaWrapper.py_in "Difference to translation invariance" line),
               b; cbn [fst snd]; try (by intros [= <-]);
        (destruct (OrcaWrapper.py_split line)
           as [|atom [|? [|? [|x [|y [|z [|? ?]]]]]]];
           try (by intros [= <-]);
         destruct (bool_decide (atom ≠ "Q")); try (by intros [= <-]);
         destruct (py_float x); cbn [rbind]; [|done];
         destruct (py_float y); cbn [rbind]; [|done];
         destruct (py_float z); cbn [rbind]; [|done];
         intros [= <-]; cbn [fst snd]; by rewrite app_assoc). }
    destruct (OrcaWrapper.gradients_step py_float (b, acc) line)
      as [[b1 acc1]|] eqn:Hs; simpl; [|done].
    rewrite (Hstep _ eq_refl). simpl. apply IH.
Qed.

Lemma gradients_fold_closed st lines closer st' :
  OrcaWrapper.py_in "Difference to translation invariance" closer = true →
  rfold (OrcaWrapper.gradients_step py_float) st (lines ++ [closer]) = Ok st' →
  st'.1 = false.
Proof.
  intros Hclose. rewrite rfold_app.
  destruct (rfold _ st lines) as [st1|]; simpl; [|done].
  unfold OrcaWrapper.gradients_step. rewrite Hclose. cbn [fst snd].
  by intros [= <-].
Qed.

(** [get_gradients] accumulates over the whole output: for an output that
    continues another one which ends on a line closing the gradient block,
    the result is the gradients of the first followed by the gradients of the
    continuation. *)
Theorem get_gradients_accumulates (calc1 calc2 calc : OrcaWrapper.Calc)
    (lines1 lines2 : list string) (closer : string)
    (g1 g2 : list (Q * Q * Q)) :
  OrcaWrapper.output_file_lines calc1 = lines1 ++ [closer] →
  OrcaWrapper.output_file_lines calc2 = lines2 →
  OrcaWrapper.output_file_lines calc = (lines1 ++ [closer]) ++ lines2 →
  OrcaWrapper.py_in "Difference to translation invariance" closer = true →
  OrcaWrapper.get_gradients py_float calc1 = Ok g1 →
  OrcaWrapper.get_gradients py_float calc2 = Ok g2 →
  OrcaWrapper.get_gradients py_float calc = Ok (g1 ++ g2).
Proof.
  unfold OrcaWrapper.get_gradients. intros -> -> -> Hclose H1 H2.
  rewrite rfold_app.
  destruct (rfold _ _ (lines1 ++ [closer])) as [[b1 acc1]|] eqn:Hfold1;
    simpl in *; [|done].
  injection H1 as ->.
  apply (gradients_fold_closed _ _ _ _ Hclose) in Hfold1. simpl in Hfold1.
  subst b1.
  destruct (rfold _ _ lines2) as [[b2 acc2]|] eqn:Hfold2; simpl in *; [|done].
  injection H2 as ->.
  pose proof (gradients_fold_prefix _ _ _ _ _ g1 Hfold2) as Hshift.
  rewrite app_nil_r in Hshift. by rewrite Hshift.
Qed.

(** Without the header of their block, neither [get_atomic_charges] nor
    [get_gradients] reads a number: both return the empty list. *)
Theorem charges_and_gradients_need_header (calc : OrcaWrapper.Calc) :
  ((∀ line, line ∈ OrcaWrapper.output_file_lines calc →
      OrcaWrapper.py_in "MULLIKEN ATOMIC CHARGES" line = false) →
   OrcaWrapper.get_atomic_charges py_float calc = Ok []) ∧
  ((∀ line, line ∈ OrcaWrapper.output_file_lines calc →
      OrcaWrapper.py_in "CARTESIAN GRADIENT" line = false) →
   OrcaWrapper.get_gradients py_float calc = Ok []).
Proof.
  unfold OrcaWrapper.get_atomic_charges, OrcaWrapper.get_gradients.
  generalize (OrcaWrapper.output_file_lines calc). intros lines. split.
  - intros Hno.
    assert (rfold (OrcaWrapper.charges_step py_float) (false, []) lines
            = Ok (false, [])) as ->; [|done].
    induction lines as [|line lines IH]; [done|]. simpl.
    unfold OrcaWrapper.charges_step at 1. rewrite (Hno line) by (by left).
    destruct (OrcaWrapper.py_in "Sum of atomic charges" line); simpl;
      apply IH; intros; apply Hno; by right.
  - intros Hno.
    assert (rfold (OrcaWrapper.gradients_step py_float) (false, []) lines
            = Ok (false, [])) as ->; [|done].
    induction lines as [|line lines IH]; [done|]. simpl.
    unfold OrcaWrapper.gradients_step at 1. rewrite (Hno line) by (by left).
    destruct (OrcaWrapper.py_in "Difference to translation invariance" line);
      simpl; apply IH; intros; apply Hno; by right.
Qed.
End OrcaParsing.

Lemma optimisation_nearly_converged_needs_marker_witness :
  ∃ i li j lj,
    i ≤ j ∧
    OrcaWrapper.rev_output_file_lines (sample_calc sample_convergence) !! i
      = Some li ∧
    OrcaWrapper.py_in "The optimization has not yet converged" li = true ∧
    OrcaWrapper.rev_output_file_lines (sample_calc sample_convergence) !! j
      = Some lj ∧
    converged_row lj.
Proof.
  apply (optimisation_nearly_converged_needs_marker
           (sample_calc sample_convergence)).
  vm_compute. reflexivity.
Defined.

Lemma get_imag_freqs_negative_witness :
  (Some [(-42550 # 100)%Q] = None ↔
     ∀ line, line ∈ OrcaWrapper.output_file_lines
                      (sample_calc sample_frequencies) →
       OrcaWrapper.py_in "VIBRATIONAL FREQUENCIES" line = false) ∧
  (∀ fs, Some [(-42550 # 100)%Q] = Some fs →
     Forall (λ f, (f < 0)%Q) fs ∧
     length fs ≤ 3 * OrcaWrapper.hessian_atoms (sample_calc sample_frequencies)).
Proof.
  apply (get_imag_freqs_negative OrcaWrapper.decimal_float
           (sample_calc sample_frequencies) (Some [(-42550 # 100)%Q])).
  vm_compute. reflexivity.
Defined.

Lemma get_normal_mode_displacements_shape_witness :
  let rows := [[(500000 # 1000000)%Q; (250000 # 1000000)%Q;
                (125000 # 1000000)%Q]] in
  length rows = OrcaWrapper.hessian_atoms (sample_calc sample_modes) ∧
  ∀ i row, rows !! i = Some row →
    1 ≤ length row ≤ 3 ∧ (i + 1 < length rows → length row = 3).
Proof.
  apply (get_normal_mode_displacements_shape OrcaWrapper.decimal_float
           OrcaWrapper.decimal_int (sample_calc sample_modes) 1).
  vm_compute. reflexivity.
Defined.

Lemma get_final_xyzs_reads_xyz_file_witness :
  let fs : gmap string (list string) := {[ "h_orca.xyz" := sample_xyz_file ]} in
  let calc := sample_calc [] in
  (fs !! ("h" +:+ "_orca.xyz") = None →
     OrcaWrapper.get_final_xyzs OrcaWrapper.decimal_float fs calc = Ok []) ∧
  (∀ file, fs !! ("h" +:+ "_orca.xyz") = Some file →
     (∀ xyzs, OrcaWrapper.get_final_xyzs OrcaWrapper.decimal_float fs calc
                = Ok xyzs →
        length xyzs = length file - 2 ∧
        ∀ k a, xyzs !! k = Some a →
          ∃ line, file !! (k + 2) = Some line ∧
                  OrcaWrapper.xyz_line OrcaWrapper.decimal_float line = Ok a ∧
                  length (OrcaWrapper.py_split line) = 4) ∧
     (∀ k line, 2 ≤ k → file !! k = Some line →
        length (OrcaWrapper.py_split line) ≠ 4 →
        ∃ e, OrcaWrapper.get_final_xyzs OrcaWrapper.decimal_float fs calc
               = Raise e)).
Proof.
  intros fs calc.
  apply (get_final_xyzs_reads_xyz_file OrcaWrapper.decimal_float fs calc "h").
  reflexivity.
Defined.

Lemma get_atomic_charges_last_block_witness :
  OrcaWrapper.get_atomic_charges OrcaWrapper.decimal_float
    (sample_calc (sample_charges ++ sample_charges))
  = OrcaWrapper.get_atomic_charges OrcaWrapper.decimal_float
      (sample_calc sample_charges).
Proof.
  apply (get_atomic_charges_last_block OrcaWrapper.decimal_float
           (sample_calc sample_charges) (sample_calc sample_charges)
           (sample_calc (sample_charges ++ sample_charges))
           sample_charges (drop 1 sample_charges) "MULLIKEN ATOMIC CHARGES"
           [(-250000 # 1000000)%Q; (250000 # 1000000)%Q]);
    vm_compute; reflexivity.
Defined.

Lemma get_gradients_accumulates_witness :
  OrcaWrapper.get_gradients OrcaWrapper.decimal_float
    (sample_calc ((sample_gradient ++ [sample_gradient_end]) ++ sample_gradient))
  = Ok ([((500000 # 1000000)%Q, (-250000 # 1000000)%Q, (125000 # 1000000)%Q)]
        ++ [((500000 # 1000000)%Q, (-250000 # 1000000)%Q,
             (125000 # 1000000)%Q)]).
Proof.
  apply (get_gradients_accumulates OrcaWrapper.decimal_float
           (sample_calc (sample_gradient ++ [sample_gradient_end]))
           (sample_calc sample_gradient)
           (sample_calc ((sample_gradient ++ [sample_gradient_end])
                         ++ sample_gradient))
           sample_gradient sample_gradient sample_gradient_end);
    vm_compute; reflexivity.
Defined.

(** ** Writing the input *)

Lemma py_remove_elem x l :
  x ∈ l → ∃ l', OrcaWrapper.py_remove x l = Ok l' ∧ S (length l') = length l.
Proof.
  induction l as [|y l IH]; intros Hin; [by inversion Hin|]. simpl.
  case_decide as Hxy; [by exists l|].
  apply elem_of_cons in Hin as [?|Hin]; [done|].
  destruct (IH Hin) as (l' & -> & Hlen). exists (y :: l'). simpl.
  split; [done | lia].
Qed.

(** The body of the keyword loop never raises on a keyword of the list, and
    never makes the list longer. *)
Lemma keyword_body_ok calc keyword st :
  keyword ∈ st.1 →
  ∃ st', OrcaWrapper.keyword_body calc keyword st = Ok st' ∧
         length st'.1 ≤ length st.1.
Proof.
  intros Hin. unfold OrcaWrapper.keyword_body.
  destruct (bool_decide (OrcaWrapper.py_lower keyword = "freq")) eqn:Hfreq.
  - apply bool_decide_eq_true in Hfreq. rewrite Hfreq.
    change (OrcaWrapper.py_in "opt" "freq") with false.
    change (bool_decide ("freq" = "sp")) with false. cbn [rbind].
    destruct (OrcaWrapper.truthy _); [|by exists st].
    destruct (py_remove_elem keyword st.1 Hin) as (l' & -> & Hlen).
    eexists. split; [done|]. cbn [fst rbind]. rewrite length_app. simpl. lia.
  - destruct (OrcaWrapper.py_in "opt" (OrcaWrapper.py_lower keyword)).
    + destruct (OrcaWrapper.n_atoms calc =? 1).
      * destruct (py_remove_elem keyword st.1 Hin) as (l' & -> & Hlen).
        cbn [rbind]. eexists. split; [done|].
        destruct (bool_decide (OrcaWrapper.py_lower keyword = "sp"));
          cbn [fst]; lia.
      * cbn [rbind]. eexists. split; [done|].
        by destruct (bool_decide (OrcaWrapper.py_lower keyword = "sp")).
    + cbn [rbind]. eexists. split; [done|].
      by destruct (bool_decide (OrcaWrapper.py_lower keyword = "sp")).
Qed.

(** The keyword loop returns, and it returns the same with any fuel at least
    the number of keywords still ahead. *)
Lemma keyword_loop_enough calc fuel extra idx st :
  length st.1 - idx ≤ fuel →
  (∃ st', OrcaWrapper.keyword_loop fuel calc idx st = Ok st') ∧
  OrcaWrapper.keyword_loop (fuel + extra) calc idx st
    = OrcaWrapper.keyword_loop fuel calc idx st.
Proof.
  revert idx st. induction fuel as [|fuel IH]; intros idx st Hfuel.
  - assert (st.1 !! idx = None) as Hend by (apply lookup_ge_None; lia).
    split; [by exists st|]. simpl. destruct extra; simpl; by rewrite ?Hend.
  - cbn [OrcaWrapper.keyword_loop Nat.add].
    destruct (st.1 !! idx) as [keyword|] eqn:Hk; [|split; [by exists st|done]].
    destruct (keyword_body_ok calc keyword st) as (st' & -> & Hlen).
    { by eapply list_elem_of_lookup_2. }
    cbn [rbind]. apply lookup_lt_Some in Hk. apply IH. lia.
Qed.

(** With more than one atom and no partial Hessian the loop leaves the
    keywords as they are and computes [opt_or_sp] from them. *)
Lemma keyword_loop_untouched calc fuel idx kws flag :
  OrcaWrapper.n_atoms calc ≠ 1 →
  OrcaWrapper.truthy (OrcaWrapper.partial_hessian calc) = false →
  length kws - idx ≤ fuel →
  OrcaWrapper.keyword_loop fuel calc idx (kws, flag)
    = Ok (kws, flag || existsb opt_or_sp_keyword (drop idx kws)).
Proof.
  intros Hn Hph. revert idx flag. induction fuel as [|fuel IH]; intros idx flag Hf.
  - rewrite drop_ge by lia. simpl. by rewrite orb_false_r.
  - cbn [OrcaWrapper.keyword_loop fst].
    destruct (kws !! idx) as [keyword|] eqn:Hk.
    2: { apply lookup_ge_None in Hk. rewrite drop_ge by lia. simpl.
         by rewrite orb_false_r. }
    rewrite (drop_S _ _ _ Hk). cbn [existsb].
    unfold OrcaWrapper.keyword_body. cbn [fst snd].
    replace (OrcaWrapper.n_atoms calc =? 1) with false
      by (symmetry; by apply Nat.eqb_neq).
    rewrite Hph.
    assert (Hstep : ∀ st', st' = (kws, flag || opt_or_sp_keyword keyword) →
              OrcaWrapper.keyword_loop fuel calc (S idx) st'
              = Ok (kws, flag || (opt_or_sp_keyword keyword
                                  || existsb opt_or_sp_keyword (drop (S idx) kws)))).
    { intros st' ->. rewrite IH by (apply lookup_lt_Some in Hk; lia).
      by rewrite orb_assoc. }
    unfold opt_or_sp_keyword in *.
    destruct (OrcaWrapper.py_in "opt" (OrcaWrapper.py_lower keyword)),
             (bool_decide (OrcaWrapper.py_lower keyword ≠ "optts")),
             (bool_decide (OrcaWrapper.py_lower keyword = "sp")),
             (bool_decide (OrcaWrapper.py_lower keyword = "freq"));
      cbn [rbind fst snd andb orb]; apply Hstep; f_equal;
      by rewrite ?orb_true_r, ?orb_false_r.
Qed.

Lemma extends_refl t : extends t t.
Proof.
  exists "". induction t as [|c t IH]; [done|].
  change (String c t +:+ "") with (String c (t +:+ "")). by rewrite <- IH.
Qed.

Lemma extends_trans t1 t2 t3 : extends t1 t2 → extends t2 t3 → extends t1 t3.
Proof.
  intros [m1 ->] [m2 ->]. exists (m1 +:+ m2). apply string_app_assoc.
Qed.

Lemma extends_print items end_ t : extends t (OrcaWrapper.py_print items end_ t).
Proof. by eexists. Qed.

Lemma extends_foldl {A} (f : string → A → string) (l : list A) t :
  (∀ t x, extends t (f t x)) → extends t (foldl f t l).
Proof.
  intros Hf. revert t. induction l as [|x l IH]; intros t; simpl.
  - apply extends_refl.
  - eapply extends_trans; [apply Hf | apply IH].
Qed.

Lemma extends_bond_ids l t : extends t (OrcaWrapper.print_bond_ids l t).
Proof.
  revert t. induction l as [|ids l IH]; intros t; simpl; [apply extends_refl|].
  destruct ids as [|b0 [|b1 ids]]; try apply extends_refl.
  eapply extends_trans; [apply extends_print | apply IH].
Qed.

(** Steps that close a chain of writes. *)
Ltac extends_chain :=
  repeat first
    [ apply extends_refl
    | apply extends_print
    | apply extends_bond_ids
    | (apply extends_foldl; intros; apply extends_print)
    | (eapply extends_trans; [|apply extends_print])
    | (eapply extends_trans; [|apply extends_bond_ids])
    | (eapply extends_trans;
       [|apply extends_foldl; intros; apply extends_print])
    | case_match ].

Section OrcaWriting.
Variable py_float : string → result Q.
Variable str_float : Q → string.
Variable format_xyz_line : atom_line → string.
Variable format_charge_line : Q → Q → Q → Q → string.

(** The input text begins with the keyword line. *)
Lemma input_text_keyword_line calc kws flag :
  extends (OrcaWrapper.py_join " " ("!" :: kws) +:+ OrcaWrapper.nl)
          (OrcaWrapper.input_text str_float format_xyz_line calc kws flag).
Proof.
  unfold OrcaWrapper.input_text.
  change (OrcaWrapper.py_print ("!" :: kws) OrcaWrapper.nl "")
    with (OrcaWrapper.py_join " " ("!" :: kws) +:+ OrcaWrapper.nl).
  generalize (OrcaWrapper.py_join " " ("!" :: kws) +:+ OrcaWrapper.nl).
  intros t0. cbv zeta. extends_chain.
Qed.

Lemma input_keywords_returns calc :
  ∃ kw, OrcaWrapper.input_keywords calc = Ok kw.
Proof.
  unfold OrcaWrapper.input_keywords.
  destruct (keyword_loop_enough calc (length (OrcaWrapper.keywords calc)) 0 0
              (OrcaWrapper.keywords calc, false)) as [[st ->] _]; [simpl; lia|].
  cbn [rbind]. destruct (OrcaWrapper.vdw_solvent calc); [|by eexists].
  destruct st.2; by eexists.
Qed.

Lemma charge_rows_ok (rows : list (list Q)) :
  (∀ row, row ∈ rows → 4 ≤ length row) →
  ∃ texts, rmap (OrcaWrapper.charge_row format_charge_line) rows = Ok texts.
Proof.
  induction rows as [|row rows IH]; intros Hrows; [by eexists|]. simpl.
  assert (∃ t, OrcaWrapper.charge_row format_charge_line row = Ok t) as [t ->].
  { specialize (Hrows row ltac:(by left)). unfold OrcaWrapper.charge_row.
    destruct row as [|a [|x [|y [|z row]]]]; simpl in Hrows; try lia.
    cbn [drop take]. rewrite last_cons.
    destruct (last (x :: y :: z :: row)) eqn:Hl; by eexists. }
  destruct IH as [texts ->]; [intros; apply Hrows; by right|]. by eexists.
Qed.

(** What a successful call has done. *)
Lemma generate_input_inv calc calc' files :
  OrcaWrapper.generate_input str_float format_xyz_line format_charge_line calc
    = Ok (calc', files) →
  ∃ kw others,
    OrcaWrapper.input_keywords calc = Ok kw ∧
    files = (OrcaWrapper.name calc +:+ "_orca.inp",
             OrcaWrapper.input_text str_float format_xyz_line calc kw.1 kw.2)
            :: others ∧
    OrcaWrapper.input_filename calc'
      = Some (OrcaWrapper.name calc +:+ "_orca.inp") ∧
    OrcaWrapper.output_filename calc'
      = Some (OrcaWrapper.name calc +:+ "_orca.out") ∧
    OrcaWrapper.keywords calc' = OrcaWrapper.keywords calc.
Proof.
  unfold OrcaWrapper.generate_input.
  destruct (OrcaWrapper.input_keywords calc) as [kw|]; cbn [rbind]; [|done].
  destruct (OrcaWrapper.truthy (OrcaWrapper.charges calc)).
  - destruct (rmap _ _); cbn [rbind]; [|done]. intros [= <- <-].
    by eexists _, _.
  - intros [= <- <-]. by eexists _, _.
Qed.

(** [generate_input] returns whenever every row of point charges has at
    least four entries (in particular when there are no point charges): the
    keyword loop never fails to find the keyword it removes, and it ends
    within as many steps as there are keywords.  The call names the input
    and output files after the calculation, writes the input file, writes the
    point-charge file exactly when there are point charges, and leaves the
    keyword list of the calculation as it was. *)
Theorem generate_input_returns (calc : OrcaWrapper.Calc) :
  (∀ row, row ∈ default [] (OrcaWrapper.charges calc) → 4 ≤ length row) →
  (∀ extra,
     OrcaWrapper.keyword_loop (length (OrcaWrapper.keywords calc) + extra)
       calc 0 (OrcaWrapper.keywords calc, false)
     = OrcaWrapper.keyword_loop (length (OrcaWrapper.keywords calc))
         calc 0 (OrcaWrapper.keywords calc, false)) ∧
  ∃ calc' text others,
    OrcaWrapper.generate_input str_float format_xyz_line format_charge_line
      calc = Ok (calc', (OrcaWrapper.name calc +:+ "_orca.inp", text) :: others) ∧
    OrcaWrapper.input_filename calc'
      = Some (OrcaWrapper.name calc +:+ "_orca.inp") ∧
    OrcaWrapper.output_filename calc'
      = Some (OrcaWrapper.name calc +:+ "_orca.out") ∧
    OrcaWrapper.keywords calc' = OrcaWrapper.keywords calc ∧
    (if OrcaWrapper.truthy (OrcaWrapper.charges calc)
     then ∃ pc_text,
            others = [(OrcaWrapper.name calc +:+ "_orca.pc", pc_text)] ∧
            OrcaWrapper.additional_input_files calc'
              = OrcaWrapper.additional_input_files calc
                ++ [OrcaWrapper.name calc +:+ "_orca.pc"]
     else others = [] ∧
          OrcaWrapper.additional_input_files calc'
            = OrcaWrapper.additional_input_files calc).
Proof.
  intros Hrows. split.
  - intros extra. apply keyword_loop_enough. simpl. lia.
  - unfold OrcaWrapper.generate_input.
    destruct (input_keywords_returns calc) as [kw ->]. cbn [rbind].
    destruct (OrcaWrapper.truthy (OrcaWrapper.charges calc)).
    + destruct (charge_rows_ok _ Hrows) as [texts ->]. cbn [rbind].
      eexists _, _, _. split; [done|]. split_and!; [done..|]. by eexists.
    + eexists _, _, _. split; [done|]. by split_and!.
Qed.

(** For a calculation on more than one atom without a partial Hessian, the
    input file that a successful call writes begins with the line of an
    exclamation mark and the keywords of the calculation, unchanged and in
    order, followed by the CPCM keyword when the solvent has an entry in the
    dictionary and some keyword asks for an optimisation or a single
    point. *)
Theorem generate_input_keyword_line (calc calc' : OrcaWrapper.Calc)
    (files : list (string * string)) :
  OrcaWrapper.n_atoms calc ≠ 1 →
  OrcaWrapper.truthy (OrcaWrapper.partial_hessian calc) = false →
  OrcaWrapper.generate_input str_float format_xyz_line format_charge_line calc
    = Ok (calc', files) →
  ∃ text others,
    files = (OrcaWrapper.name calc +:+ "_orca.inp", text) :: others ∧
    extends
      (OrcaWrapper.py_join " "
         ("!" :: OrcaWrapper.keywords calc ++
            match OrcaWrapper.vdw_solvent calc with
            | Some solvent =>
              if existsb opt_or_sp_keyword (OrcaWrapper.keywords calc)
              then ["CPCM(" +:+ solvent +:+ ")"] else []
            | None => []
            end) +:+ OrcaWrapper.nl)
      text.
Proof.
  intros Hn Hph Hrun.
  apply generate_input_inv in Hrun as (kw & others & Hkw & -> & _).
  eexists _, others. split; [done|].
  unfold OrcaWrapper.input_keywords in Hkw.
  rewrite (keyword_loop_untouched calc _ 0 _ false Hn Hph) in Hkw
    by (simpl; lia).
  rewrite drop_0 in Hkw. cbn [rbind fst snd orb] in Hkw.
  destruct (OrcaWrapper.vdw_solvent calc) as [solvent|].
  - destruct (existsb opt_or_sp_keyword (OrcaWrapper.keywords calc));
      injection Hkw as <-; cbn [fst snd]; rewrite ?app_nil_r;
      apply input_text_keyword_line.
  - injection Hkw as <-. cbn [fst snd]. rewrite app_nil_r.
    apply input_text_keyword_line.
Qed.

(** After a successful [generate_input], [get_final_xyzs] looks for the
    geometry in the file named after the calculation with [_orca.xyz]. *)
Theorem generate_input_then_get_final_xyzs (calc calc' : OrcaWrapper.Calc)
    (files : list (string * string)) (fs : gmap string (list string)) :
  OrcaWrapper.generate_input str_float format_xyz_line format_charge_line calc
    = Ok (calc', files) →
  OrcaWrapper.get_final_xyzs py_float fs calc' =
    match fs !! (OrcaWrapper.name calc +:+ "_orca.xyz") with
    | Some file => rmap (OrcaWrapper.xyz_line py_float) (drop 2 file)
    | None => Ok []
    end.
Proof.
  intros Hrun. apply generate_input_inv in Hrun as (_ & _ & _ & _ & _ & Hout & _).
  by apply get_final_xyzs_orca_out.
Qed.
End OrcaWriting.

Lemma generate_input_returns_witness :
  (∀ extra,
     OrcaWrapper.keyword_loop
       (length (OrcaWrapper.keywords sample_scan_calc) + extra)
       sample_scan_calc 0 (OrcaWrapper.keywords sample_scan_calc, false)
     = OrcaWrapper.keyword_loop (length (OrcaWrapper.keywords sample_scan_calc))
         sample_scan_calc 0 (OrcaWrapper.keywords sample_scan_calc, false)) ∧
  ∃ calc' text others,
    OrcaWrapper.generate_input sample_str_float sample_format_xyz_line
      sample_format_charge_line sample_scan_calc
      = Ok (calc', (OrcaWrapper.name sample_scan_calc +:+ "_orca.inp", text)
                   :: others) ∧
    OrcaWrapper.input_filename calc'
      = Some (OrcaWrapper.name sample_scan_calc +:+ "_orca.inp") ∧
    OrcaWrapper.output_filename calc'
      = Some (OrcaWrapper.name sample_scan_calc +:+ "_orca.out") ∧
    OrcaWrapper.keywords calc' = OrcaWrapper.keywords sample_scan_calc ∧
    (if OrcaWrapper.truthy (OrcaWrapper.charges sample_scan_calc)
     then ∃ pc_text,
            others = [(OrcaWrapper.name sample_scan_calc +:+ "_orca.pc",
                       pc_text)] ∧
            OrcaWrapper.additional_input_files calc'
              = OrcaWrapper.additional_input_files sample_scan_calc
                ++ [OrcaWrapper.name sample_scan_calc +:+ "_orca.pc"]
     else others = [] ∧
          OrcaWrapper.additional_input_files calc'
            = OrcaWrapper.additional_input_files sample_scan_calc).
Proof.
  apply (generate_input_returns sample_str_float sample_format_xyz_line
           sample_format_charge_line sample_scan_calc).
  intros row Hrow. apply list_elem_of_singleton in Hrow as ->. simpl. lia.
Defined.

Lemma generate_input_keyword_line_witness :
  ∃ text others,
    sample_generated.2
      = (OrcaWrapper.name sample_scan_calc +:+ "_orca.inp", text) :: others ∧
    extends
      (OrcaWrapper.py_join " "
         ("!" :: OrcaWrapper.keywords sample_scan_calc ++
            match OrcaWrapper.vdw_solvent sample_scan_calc with
            | Some solvent =>
              if existsb opt_or_sp_keyword
                   (OrcaWrapper.keywords sample_scan_calc)
              then ["CPCM(" +:+ solvent +:+ ")"] else []
            | None => []
            end) +:+ OrcaWrapper.nl)
      text.
Proof.
  apply (generate_input_keyword_line sample_str_float sample_format_xyz_line
           sample_format_charge_line sample_scan_calc sample_generated.1).
  - vm_compute. lia.
  - vm_compute. reflexivity.
  - vm_compute. reflexivity.
Defined.

Lemma generate_input_then_get_final_xyzs_witness :
  OrcaWrapper.get_final_xyzs OrcaWrapper.decimal_float
    {[ "h2_scan0_orca.xyz" := sample_xyz_file ]} sample_generated.1 =
    match ({[ "h2_scan0_orca.xyz" := sample_xyz_file ]}
             : gmap string (list string))
          !! (OrcaWrapper.name sample_scan_calc +:+ "_orca.xyz") with
    | Some file =>
      rmap (OrcaWrapper.xyz_line OrcaWrapper.decimal_float) (drop 2 file)
    | None => Ok []
    end.
Proof.
  apply (generate_input_then_get_final_xyzs OrcaWrapper.decimal_float
           sample_str_float sample_format_xyz_line sample_format_charge_line
           sample_scan_calc sample_generated.1 sample_generated.2).
  vm_compute. reflexivity.
Defined.

(** The text that the sample gives. *)
Example sample_generated_files :
  fst <$> sample_generated.2 = ["h2_scan0_orca.inp"; "h2_scan0_orca.pc"] ∧
  OrcaWrapper.input_keywords sample_scan_calc
    = Ok (["LooseOpt"; "PBE0"; "CPCM(Water)"], true).
Proof. split; by vm_compute. Qed.

